(** * Checkpoint / branch store of the langgraph-checkpoint-neo4j demo backend

    Shallow embedding of the history, message and thread routers of
    [demo/backend/app/routers] over a model of the Neo4j graph: a list of
    [:Checkpoint] nodes (in creation order) and a list of [:Branch] nodes.
    The checkpointer methods ([aget_tuple], [alist]) and the Cypher
    constants imported from [langgraph.checkpoint.neo4j.base] are not part
    of the routers; they are modelled from the spec and marked as such. *)

From Stdlib Require Import List String ZArith Bool Lia Sorting.Permutation Sorting.Sorted.
Import ListNotations.
Open Scope string_scope.
Open Scope Z_scope.

(** ** Data model *)

(** A [:Checkpoint] node with the fields the routers read.  [c_step] and
    [c_source] live in the metadata dict (read with [.get]), [c_messages]
    in [checkpoint["channel_values"]] (read with [.get("messages", [])]). *)
Record Checkpoint := mkCheckpoint {
  c_thread : string;
  c_ns : string;
  c_id : string;
  c_parent : option string;
  c_step : option Z;
  c_source : option string;
  c_messages : option (list string);
  c_created_at : Z
}.

(** A [:Branch] node ([models.Branch] plus its conversation key). *)
Record Branch := mkBranch {
  b_id : string;
  b_thread : string;
  b_ns : string;
  b_name : string;
  b_created_at : Z;
  b_fork_point : option string;
  b_is_active : bool;
  b_head : option string
}.

Record Store := mkStore {
  s_checkpoints : list Checkpoint;
  s_branches : list Branch
}.

Definition empty_store : Store := mkStore [] [].

Inductive HttpError := HTTPException (status : Z) (detail : string).

(** Endpoint result: a raised [HTTPException] or a value and the new store. *)
Definition Result (A : Type) := (HttpError + (A * Store))%type.

Definition in_conv (t ns : string) (c : Checkpoint) : bool :=
  String.eqb (c_thread c) t && String.eqb (c_ns c) ns.

Definition br_in_conv (t ns : string) (b : Branch) : bool :=
  String.eqb (b_thread b) t && String.eqb (b_ns b) ns.

Definition checkpoints_of (st : Store) (t ns : string) : list Checkpoint :=
  filter (in_conv t ns) (s_checkpoints st).

Definition branches_of (st : Store) (t ns : string) : list Branch :=
  filter (br_in_conv t ns) (s_branches st).

Definition find_checkpoint (st : Store) (t ns cid : string) : option Checkpoint :=
  find (fun c => String.eqb (c_id c) cid) (checkpoints_of st t ns).

Definition active_branch (st : Store) (t ns : string) : option Branch :=
  find b_is_active (branches_of st t ns).

(** [current_head]: the head of the active branch. *)
Definition current_head (st : Store) (t ns : string) : option string :=
  match active_branch st t ns with
  | Some b => b_head b
  | None => None
  end.

Definition last_opt {A} (l : list A) : option A :=
  match rev l with [] => None | x :: _ => Some x end.

(** ** Checkpointer and Cypher queries (not in the routers) *)

(** Modelled from the spec: [AsyncNeo4jSaver.aget_tuple] (section 4.1,
    [get]).  With a [checkpoint_id] it returns the checkpoint with that id
    in the conversation; without one it returns the checkpoint at the head
    of the active branch (the most recently created checkpoint of the
    active chain, since appending moves the head to the new checkpoint),
    or, while no branch exists, the most recently created checkpoint of
    the conversation. *)
Definition aget_tuple (st : Store) (t ns : string) (cid : option string)
  : option Checkpoint :=
  match cid with
  | Some id => find_checkpoint st t ns id
  | None =>
      match active_branch st t ns with
      | Some b =>
          match b_head b with
          | Some h => find_checkpoint st t ns h
          | None => None
          end
      | None => last_opt (checkpoints_of st t ns)
      end
  end.

(** Modelled from the spec: [AsyncNeo4jSaver.alist] ([list_chain]): walks
    the parent links from the default checkpoint back to the root, most
    recent first; [fuel] bounds the walk by the number of checkpoints. *)
Fixpoint walk_chain (st : Store) (t ns : string) (fuel : nat)
    (c : Checkpoint) : list Checkpoint :=
  match fuel with
  | O => [c]
  | S f =>
      c :: match c_parent c with
           | Some p =>
               match find_checkpoint st t ns p with
               | Some pc => walk_chain st t ns f pc
               | None => []
               end
           | None => []
           end
  end.

Definition alist (st : Store) (t ns : string) : list Checkpoint :=
  match aget_tuple st t ns None with
  | Some c => walk_chain st t ns (List.length (s_checkpoints st)) c
  | None => []
  end.

(** Modelled from the spec: [CYPHER_CREATE_BRANCH] ([fork]): a new
    inactive branch whose fork point and head are the source checkpoint. *)
Definition cypher_create_branch (st : Store) (t ns bid name fp : string)
    (now : Z) : Store :=
  mkStore (s_checkpoints st)
    (s_branches st ++
       [mkBranch bid t ns name now (Some fp) false (Some fp)]).

Definition set_active_flag (t ns bid : string) (b : Branch) : Branch :=
  if br_in_conv t ns b then
    mkBranch (b_id b) (b_thread b) (b_ns b) (b_name b) (b_created_at b)
      (b_fork_point b) (String.eqb (b_id b) bid) (b_head b)
  else b.

(** Modelled from the spec: [CYPHER_SET_ACTIVE_BRANCH] ([switch_active]):
    if the branch exists in the conversation, deactivates the current
    active branch and activates it in one write and returns a record;
    otherwise returns no record and writes nothing. *)
Definition cypher_set_active_branch (st : Store) (t ns bid : string)
  : option string * Store :=
  if existsb (fun b => String.eqb (b_id b) bid) (branches_of st t ns) then
    (Some bid,
     mkStore (s_checkpoints st) (map (set_active_flag t ns bid) (s_branches st)))
  else (None, st).

Definition set_head (t ns cid : string) (b : Branch) : Branch :=
  if br_in_conv t ns b && b_is_active b then
    mkBranch (b_id b) (b_thread b) (b_ns b) (b_name b) (b_created_at b)
      (b_fork_point b) (b_is_active b) (Some cid)
  else b.

(** Modelled from the spec: [CYPHER_UPDATE_BRANCH_HEAD] ([advance_active]):
    sets the head of the active branch of the conversation. *)
Definition cypher_update_branch_head (st : Store) (t ns cid : string) : Store :=
  mkStore (s_checkpoints st) (map (set_head t ns cid) (s_branches st)).

(** Modelled from the spec: [CYPHER_LIST_BRANCHES] ([list_branches]). *)
Definition cypher_list_branches (st : Store) (t ns : string) : list Branch :=
  branches_of st t ns.

(** A row of [CYPHER_GET_CHECKPOINT_TREE]. *)
Record TreeRow := mkTreeRow {
  r_checkpoint_id : string;
  r_parent_id : option string;
  r_branch_id : option string;
  r_branch_name : option string
}.

(** Modelled from the spec: [CYPHER_GET_CHECKPOINT_TREE] ([full_tree]): a
    scan of every checkpoint of the conversation, each with its parent id
    and the branch (if any) that has it as fork point. *)
Definition cypher_get_checkpoint_tree (st : Store) (t ns : string)
  : list TreeRow :=
  map (fun c =>
         let fb := find (fun b => match b_fork_point b with
                                  | Some fp => String.eqb fp (c_id c)
                                  | None => false
                                  end) (branches_of st t ns) in
         mkTreeRow (c_id c) (c_parent c)
           (option_map b_id fb) (option_map b_name fb))
      (checkpoints_of st t ns).

(** Modelled from the spec: [append] with [advance_active] (sections 4.1,
    4.2 and 5), as [AsyncNeo4jSaver.aput] does for a graph run: the new
    checkpoint takes the active branch's head as parent and becomes its
    head in the same write; the first checkpoint of a conversation
    materializes the root branch ["main"], active, eagerly. *)
Definition append (st : Store) (t ns cid : string) (step : Z)
    (source : string) (msgs : list string) (now : Z) (root_bid : string)
  : Store :=
  match branches_of st t ns with
  | [] =>
      let parent := option_map c_id (last_opt (checkpoints_of st t ns)) in
      mkStore
        (s_checkpoints st ++
           [mkCheckpoint t ns cid parent (Some step) (Some source) (Some msgs) now])
        (s_branches st ++
           [mkBranch root_bid t ns "main" now None true (Some cid)])
  | _ :: _ =>
      let parent := current_head st t ns in
      cypher_update_branch_head
        (mkStore
           (s_checkpoints st ++
              [mkCheckpoint t ns cid parent (Some step) (Some source) (Some msgs) now])
           (s_branches st))
        t ns cid
  end.

(** ** Routers *)

(** [messages.convert_message]: the role and tool calls are left out; the
    timestamp is [datetime.utcnow()] at conversion. *)
Record Message := mkMessage { m_content : string; m_timestamp : Z }.

Definition convert_message (now : Z) (m : string) : Message := mkMessage m now.

(** [tuple_.checkpoint.get("channel_values", {}).get("messages", [])] *)
Definition raw_messages (c : Checkpoint) : list string :=
  match c_messages c with Some ms => ms | None => [] end.

(** [get_messages]: the messages of the default checkpoint of thread [t]. *)
Definition get_messages (st : Store) (t : string) (now : Z) : list Message :=
  match aget_tuple st t "" None with
  | None => []
  | Some c => map (convert_message now) (raw_messages c)
  end.

Record CheckpointSummary := mkCheckpointSummary {
  cs_checkpoint_id : string;
  cs_step : Z;
  cs_source : string;
  cs_timestamp : Z;
  cs_message_count : nat
}.

(** [list_checkpoints]; [now] is [datetime.utcnow()] at the request. *)
Definition list_checkpoints (st : Store) (t : string) (now : Z)
  : list CheckpointSummary :=
  map (fun c =>
         mkCheckpointSummary (c_id c)
           (match c_step c with Some s => s | None => 0 end)
           (match c_source c with Some s => s | None => "unknown" end)
           now
           (List.length (raw_messages c)))
      (alist st t "").

Record CheckpointDetail := mkCheckpointDetail {
  cd_checkpoint_id : string;
  cd_step : Z;
  cd_source : string;
  cd_timestamp : Z;
  cd_messages : list Message;
  cd_parent_checkpoint_id : option string
}.

(** [get_checkpoint] (read only: no store in the result). *)
Definition get_checkpoint (st : Store) (t cid : string) (now : Z)
  : HttpError + CheckpointDetail :=
  match aget_tuple st t "" (Some cid) with
  | None => inl (HTTPException 404 "Checkpoint not found")
  | Some c =>
      inr (mkCheckpointDetail cid
             (match c_step c with Some s => s | None => 0 end)
             (match c_source c with Some s => s | None => "unknown" end)
             now
             (map (convert_message now) (raw_messages c))
             (c_parent c))
  end.

(** Python's [name or default] for [name : str | None]: [None] and [""]
    are falsy. *)
Definition py_or (name : option string) (default : string) : string :=
  match name with
  | Some n => if String.eqb n "" then default else n
  | None => default
  end.

(** [f"fork-{branch_id[:8]}"] *)
Definition default_branch_name (bid : string) : string :=
  "fork-" ++ substring 0 8 bid.

Record ForkRequest := mkForkRequest {
  fr_checkpoint_id : string;
  fr_name : option string
}.

(** [fork_branch]; [bid] is the drawn [uuid.uuid4()], [now] the time. *)
Definition fork_branch (st : Store) (t : string) (req : ForkRequest)
    (bid : string) (now : Z) : Result Branch :=
  match aget_tuple st t "" (Some (fr_checkpoint_id req)) with
  | None => inl (HTTPException 404 "Checkpoint not found")
  | Some _ =>
      let branch_name := py_or (fr_name req) (default_branch_name bid) in
      let st' := cypher_create_branch st t "" bid branch_name
                   (fr_checkpoint_id req) now in
      inr (mkBranch bid t "" branch_name now (Some (fr_checkpoint_id req))
             false (Some (fr_checkpoint_id req)), st')
  end.

Record SwitchResponse := mkSwitchResponse {
  sw_branch_id : string;
  sw_messages : list Message
}.

(** [switch_branch] *)
Definition switch_branch (st : Store) (t bid : string) (now : Z)
  : Result SwitchResponse :=
  match cypher_set_active_branch st t "" bid with
  | (None, _) => inl (HTTPException 404 "Branch not found")
  | (Some _, st') =>
      let messages :=
        match aget_tuple st' t "" None with
        | Some c => map (convert_message now) (raw_messages c)
        | None => []
        end in
      inr (mkSwitchResponse bid messages, st')
  end.

Record CheckpointTreeNode := mkCheckpointTreeNode {
  n_checkpoint_id : string;
  n_parent_id : option string;
  n_branch_id : option string;
  n_branch_name : option string
}.

Record CheckpointTree := mkCheckpointTree {
  tree_nodes : list CheckpointTreeNode;
  tree_branches : list Branch
}.

(** [get_checkpoint_tree] *)
Definition get_checkpoint_tree (st : Store) (t : string) : CheckpointTree :=
  let nodes :=
    map (fun r => mkCheckpointTreeNode (r_checkpoint_id r) (r_parent_id r)
                    (r_branch_id r) (r_branch_name r))
        (cypher_get_checkpoint_tree st t "") in
  let branches := cypher_list_branches st t "" in
  mkCheckpointTree nodes branches.

Record TimeTravelRequest := mkTimeTravelRequest {
  tt_checkpoint_id : string;
  tt_branch_name : option string
}.

Record TimeTravelResponse := mkTimeTravelResponse {
  ttr_checkpoint_id : string;
  ttr_branch_id : string;
  ttr_branch_name : string;
  ttr_messages : list Message
}.

(** The three [session.run] writes of [time_travel], in order.  Each runs
    in an auto-commit transaction of its own: the session opens none. *)
Definition time_travel_writes (t : string) (req : TimeTravelRequest)
    (bid branch_name : string) (now : Z) : list (Store -> Store) :=
  [ (fun s => cypher_create_branch s t "" bid branch_name (tt_checkpoint_id req) now);
    (fun s => snd (cypher_set_active_branch s t "" bid));
    (fun s => cypher_update_branch_head s t "" (tt_checkpoint_id req)) ].

Definition run_writes (ws : list (Store -> Store)) (st : Store) : Store :=
  fold_left (fun s w => w s) ws st.

(** [time_travel] *)
Definition time_travel (st : Store) (t : string) (req : TimeTravelRequest)
    (bid : string) (now : Z) : Result TimeTravelResponse :=
  match aget_tuple st t "" (Some (tt_checkpoint_id req)) with
  | None => inl (HTTPException 404 "Checkpoint not found")
  | Some c =>
      let branch_name := py_or (tt_branch_name req) (default_branch_name bid) in
      let st' := run_writes (time_travel_writes t req bid branch_name now) st in
      inr (mkTimeTravelResponse (tt_checkpoint_id req) bid branch_name
             (map (convert_message now) (raw_messages c)), st')
  end.

(** [time_travel] when the [k]-th [session.run] raises: the store it
    leaves behind holds the writes committed before. *)
Definition time_travel_interrupted (k : nat) (st : Store) (t : string)
    (req : TimeTravelRequest) (bid : string) (now : Z) : HttpError + Store :=
  match aget_tuple st t "" (Some (tt_checkpoint_id req)) with
  | None => inl (HTTPException 404 "Checkpoint not found")
  | Some _ =>
      let branch_name := py_or (tt_branch_name req) (default_branch_name bid) in
      inr (run_writes (firstn k (time_travel_writes t req bid branch_name now)) st)
  end.

Record Thread := mkThread {
  th_id : string;
  th_name : string;
  th_created_at : Z;
  th_last_message_at : option Z;
  th_message_count : nat
}.

Definition list_min (l : list Z) : option Z :=
  match l with [] => None | x :: r => Some (fold_left Z.min r x) end.

Definition list_max (l : list Z) : option Z :=
  match l with [] => None | x :: r => Some (fold_left Z.max r x) end.

(** The Cypher query of [get_thread]: [MATCH (t:Thread {thread_id})
    -[:HAS_CHECKPOINT]->(c:Checkpoint)], grouped by [thread_id]; no row
    when nothing matches. *)
Definition thread_query (st : Store) (t : string)
  : option (option Z * option Z * nat) :=
  let cs := filter (fun c => String.eqb (c_thread c) t) (s_checkpoints st) in
  match cs with
  | [] => None
  | _ :: _ =>
      let ts := map c_created_at cs in
      Some (list_min ts, list_max ts, List.length cs)
  end.

Definition thread_name (t : string) : string :=
  "Thread " ++ substring 0 8 t ++ "...".

(** [get_thread]; [now] is [datetime.utcnow()]. *)
Definition get_thread (st : Store) (t : string) (now : Z) : Thread :=
  match thread_query st t with
  | None => mkThread t (thread_name t) now None 0
  | Some (created_at, last_activity, count) =>
      mkThread t (thread_name t)
        (match created_at with Some x => x | None => now end)
        last_activity count
  end.

(** ** Single active branch *)

Definition fresh_branch_id (bid : string) (st : Store) : Prop :=
  ~ In bid (map b_id (s_branches st)).

(** The stores the operations can produce from the empty graph, every
    committed write of [time_travel] included: each of its three writes
    commits on its own, so the states between them are observable.  Ids
    drawn with [uuid.uuid4()] are fresh. *)
Inductive reachable : Store -> Prop :=
| reach_empty : reachable empty_store
| reach_append st t ns cid step source msgs now rb :
    reachable st -> fresh_branch_id rb st ->
    reachable (append st t ns cid step source msgs now rb)
| reach_fork st t req bid now b st' :
    reachable st -> fresh_branch_id bid st ->
    fork_branch st t req bid now = inr (b, st') -> reachable st'
| reach_switch st t bid now r st' :
    reachable st -> switch_branch st t bid now = inr (r, st') -> reachable st'
| reach_time_travel st t req bid now r st' :
    reachable st -> fresh_branch_id bid st ->
    time_travel st t req bid now = inr (r, st') -> reachable st'
| reach_time_travel_interrupted k st t req bid now st' :
    reachable st -> fresh_branch_id bid st ->
    time_travel_interrupted k st t req bid now = inr st' -> reachable st'.

Definition active_count (l : list Branch) : nat :=
  List.length (filter b_is_active l).

(** The invariant behind the claim: branch ids are unique in each
    conversation, and a conversation either has neither branch nor
    checkpoint or has exactly one active branch. *)
Definition branch_inv (st : Store) : Prop :=
  forall t ns,
    NoDup (map b_id (branches_of st t ns)) /\
    ((branches_of st t ns = [] /\ checkpoints_of st t ns = []) \/
     active_count (branches_of st t ns) = 1%nat).

(** ** Further routers and the agent module *)

(** The distinct [thread_id]s of the [:Thread] nodes that have a checkpoint. *)
Definition thread_ids (st : Store) : list string :=
  nodup string_dec (map c_thread (s_checkpoints st)).

(** The rows of the [list_threads] query before ordering: one per thread,
    the same aggregation as the [get_thread] query. *)
Definition list_threads_rows (st : Store)
  : list (string * (option Z * option Z * nat)) :=
  flat_map (fun t => match thread_query st t with
                     | Some r => [(t, r)]
                     | None => []
                     end) (thread_ids st).

(** [ORDER BY last_activity DESC]: may [a] come before [b]?  Neo4j sorts
    [null] as the largest value, so first in descending order. *)
Definition desc_before (a b : option Z) : bool :=
  match a, b with
  | None, _ => true
  | Some _, None => false
  | Some x, Some y => y <=? x
  end.

Definition row_last (r : string * (option Z * option Z * nat)) : option Z :=
  let '(_, (_, mx, _)) := r in mx.

Definition row_rel (a b : string * (option Z * option Z * nat)) : Prop :=
  desc_before (row_last a) (row_last b) = true.

Fixpoint insert_row (x : string * (option Z * option Z * nat))
    (l : list (string * (option Z * option Z * nat)))
  : list (string * (option Z * option Z * nat)) :=
  match l with
  | [] => [x]
  | y :: r => if desc_before (row_last x) (row_last y) then x :: y :: r
              else y :: insert_row x r
  end.

(** The order Neo4j returns the rows in; ties come in an order of its
    choosing, here the one insertion sort gives. *)
Definition order_by_last_desc (rows : list (string * (option Z * option Z * nat)))
  : list (string * (option Z * option Z * nat)) :=
  fold_right insert_row [] rows.

Definition row_to_thread (now : Z) (r : string * (option Z * option Z * nat))
  : Thread :=
  let '(t, (created_at, last_activity, count)) := r in
  mkThread t (thread_name t)
    (match created_at with Some x => x | None => now end)
    last_activity count.

(** [list_threads]; [now] is [datetime.utcnow()]. *)
Definition list_threads (st : Store) (now : Z) : list Thread :=
  map (row_to_thread now) (order_by_last_desc (list_threads_rows st)).



(** Modelled from the spec: [AsyncNeo4jSaver.adelete_thread]
    ([delete_thread]): removes every checkpoint and every branch of the
    thread, in all namespaces. *)
Definition adelete_thread (st : Store) (t : string) : Store :=
  mkStore (filter (fun c => negb (String.eqb (c_thread c) t)) (s_checkpoints st))
          (filter (fun b => negb (String.eqb (b_thread b) t)) (s_branches st)).

(** [delete_thread]: the response [{"status": "deleted", "thread_id": t}]. *)
Definition delete_thread (st : Store) (t : string) : (string * string) * Store :=
  (("deleted", t), adelete_thread st t).

(** [list_branches]: each record of [CYPHER_LIST_BRANCHES] becomes a
    [Branch] with the same fields. *)
Definition list_branches (st : Store) (t : string) : list Branch :=
  map (fun r => mkBranch (b_id r) (b_thread r) (b_ns r) (b_name r) (b_created_at r)
                  (b_fork_point r) (b_is_active r) (b_head r))
      (cypher_list_branches st t "").

Record ToolCall := mkToolCall {
  call_name : string;
  call_args : string;
  call_id : string
}.

(** The LangChain messages the routers and the agent see.  Only
    [AIMessage] has [tool_calls]; any other message has a [type] and
    possibly a [content] (its [str] is [repr]). *)
Inductive LcMessage :=
| HumanMessage (content : string)
| AIMessage (content : string) (tool_calls : list ToolCall)
| ToolMessage (content : string) (tool_call_id : string)
| OtherMessage (type_ : string) (content : option string) (repr : string).

Record ApiMessage := mkApiMessage {
  am_role : string;
  am_content : string;
  am_timestamp : Z;
  am_tool_calls : option (list ToolCall)
}.

(** [messages.convert_message] on typed messages (the [convert_message]
    above keeps only content and timestamp). *)
Definition convert_lc_message (now : Z) (msg : LcMessage) : ApiMessage :=
  match msg with
  | HumanMessage c => mkApiMessage "user" c now None
  | AIMessage c tcs =>
      mkApiMessage "assistant" c now (match tcs with [] => None | _ => Some tcs end)
  | ToolMessage c _ => mkApiMessage "tool" c now None
  | OtherMessage ty content repr =>
      mkApiMessage ty (match content with Some c => c | None => repr end) now None
  end.

Definition lc_content (msg : LcMessage) : string :=
  match msg with
  | HumanMessage c | AIMessage c _ | ToolMessage c _ => c
  | OtherMessage _ (Some c) _ => c
  | OtherMessage _ None repr => repr
  end.

Inductive PyError := IndexError.

(** [langgraph.graph.END] *)
Definition END : string := "__end__".

(** [hasattr(m, "tool_calls") and m.tool_calls] *)
Definition has_tool_calls (m : LcMessage) : bool :=
  match m with AIMessage _ (_ :: _) => true | _ => false end.

(** [agent.graph.should_continue]: [messages[-1]] raises on an empty list. *)
Definition should_continue (messages : list LcMessage) : PyError + string :=
  match last_opt messages with
  | None => inl IndexError
  | Some last_message => inr (if has_tool_calls last_message then "tools" else END)
  end.

(** The temperature of [agent.tools.get_weather]: [city_hash] is
    [hash(city.lower())], any Python int; Python's [%] by 30 is
    [Z.modulo].  [int(base_temp * 9 / 5 + 32)] truncates a positive float
    whose fractional part is a multiple of 1/5, so it is the integer
    division written here. *)
Definition weather_temp (city_hash : Z) (units : option string) : Z * string :=
  let base_temp := city_hash mod 30 + 5 in
  if match units with Some u => String.eqb u "fahrenheit" | None => false end
  then (base_temp * 9 / 5 + 32, "F")
  else (base_temp, "C").

(** Consecutive checkpoints of a listing are linked child to parent. *)
Fixpoint parent_linked (l : list Checkpoint) : Prop :=
  match l with
  | x :: ((y :: _) as r) => c_parent x = Some (c_id y) /\ parent_linked r
  | _ => True
  end.

(** ** A sample conversation

    Thread ["t1"]: [c0] (step 0, at time 100), then [c1] (step 1, at time
    110, parent [c0]); the root branch ["b0"] is active with head [c1]. *)
Definition st_c0 : Store :=
  append empty_store "t1" "" "c0" 0 "input" ["hello"] 100 "b0".

Definition st_c1 : Store :=
  append st_c0 "t1" "" "c1" 1 "loop" ["hello"; "hi there"] 110 "r1".

Example st_c1_head : current_head st_c1 "t1" "" = Some "c1".
Proof. reflexivity. Qed.

Example st_c1_chain :
  map c_id (alist st_c1 "t1" "") = ["c1"; "c0"].
Proof. reflexivity. Qed.

Example st_c1_fork :
  match fork_branch st_c1 "t1" (mkForkRequest "c0" (Some "alt")) "b1" 120 with
  | inr (b, st') => b_head b = Some "c0" /\ current_head st' "t1" "" = Some "c1"
  | inl _ => False
  end.
Proof. simpl. split; reflexivity. Qed.

(** ** Helper lemmas *)

Lemma fold_min_bound (r : list Z) (x : Z) :
  fold_left Z.min r x <= x /\ Forall (fun y => fold_left Z.min r x <= y) r.
Proof.
  revert x; induction r as [|y r IH]; intro x; simpl.
  - split; [lia | constructor].
  - destruct (IH (Z.min x y)) as [H1 H2]. split; [lia|].
    constructor; [lia | exact H2].
Qed.

Lemma fold_min_mem (r : list Z) (x : Z) :
  fold_left Z.min r x = x \/ In (fold_left Z.min r x) r.
Proof.
  revert x; induction r as [|y r IH]; intro x; simpl; [left; reflexivity|].
  destruct (IH (Z.min x y)) as [H|H].
  - rewrite H. destruct (Z.min_spec x y) as [[_ E]|[_ E]]; rewrite E; auto.
  - right; right; exact H.
Qed.

Lemma fold_max_bound (r : list Z) (x : Z) :
  x <= fold_left Z.max r x /\ Forall (fun y => y <= fold_left Z.max r x) r.
Proof.
  revert x; induction r as [|y r IH]; intro x; simpl.
  - split; [lia | constructor].
  - destruct (IH (Z.max x y)) as [H1 H2]. split; [lia|].
    constructor; [lia | exact H2].
Qed.

Lemma fold_max_mem (r : list Z) (x : Z) :
  fold_left Z.max r x = x \/ In (fold_left Z.max r x) r.
Proof.
  revert x; induction r as [|y r IH]; intro x; simpl; [left; reflexivity|].
  destruct (IH (Z.max x y)) as [H|H].
  - rewrite H. destruct (Z.max_spec x y) as [[_ E]|[_ E]]; rewrite E; auto.
  - right; right; exact H.
Qed.

Lemma Forall_map_inv {A B} (f : A -> B) (P : B -> Prop) (l : list A) :
  Forall P (map f l) -> Forall (fun a => P (f a)) l.
Proof.
  induction l as [|a l IH]; simpl; intro H; [constructor|].
  inversion H; subst; constructor; auto.
Qed.

(** ** Claims *)

(** C3: the summaries of [list_checkpoints] carry the request
    time [datetime.utcnow()] as timestamp, not the [created_at] of the
    checkpoint: on thread ["t1"] read at time 200, both summaries say 200
    while the checkpoints were created at 110 and 100. *)
Theorem list_checkpoints_timestamp_is_read_time :
  map cs_timestamp (list_checkpoints st_c1 "t1" 200) = [200; 200] /\
  map c_created_at (alist st_c1 "t1" "") = [110; 100] /\
  map cs_checkpoint_id (list_checkpoints st_c1 "t1" 200) = ["c1"; "c0"].
Proof. repeat split; reflexivity. Qed.

(** C10: [get_thread] never raises; without a checkpoint of the thread it
    returns the default thread (0 messages, no last message, created now),
    otherwise the message count is the number of the thread's checkpoints
    and [created_at] / [last_message_at] are the least and the greatest
    checkpoint [created_at]. *)
Theorem get_thread_total (st : Store) (t : string) (now : Z) :
  let cs := filter (fun c => String.eqb (c_thread c) t) (s_checkpoints st) in
  let th := get_thread st t now in
  th_id th = t /\
  match cs with
  | [] => th_message_count th = 0%nat /\ th_last_message_at th = None /\
          th_created_at th = now
  | _ :: _ =>
      th_message_count th = List.length cs /\
      In (th_created_at th) (map c_created_at cs) /\
      Forall (fun c => th_created_at th <= c_created_at c) cs /\
      exists m, th_last_message_at th = Some m /\
        In m (map c_created_at cs) /\ Forall (fun c => c_created_at c <= m) cs
  end.
Proof.
  intros cs th. unfold th, get_thread, thread_query. fold cs.
  destruct cs as [|c r] eqn:Ecs; simpl.
  - repeat split; reflexivity.
  - split; [reflexivity|]. split; [reflexivity|].
    destruct (fold_min_bound (map c_created_at r) (c_created_at c)) as [Mn1 Mn2].
    destruct (fold_max_bound (map c_created_at r) (c_created_at c)) as [Mx1 Mx2].
    split; [destruct (fold_min_mem (map c_created_at r) (c_created_at c)) as [H|H];
            [left; symmetry; exact H | right; exact H]|].
    split; [constructor; [exact Mn1 | exact (Forall_map_inv _ _ _ Mn2)]|].
    eexists; split; [reflexivity|]. split.
    + destruct (fold_max_mem (map c_created_at r) (c_created_at c)) as [H|H];
        [left; symmetry; exact H | right; exact H].
    + constructor; [exact Mx1 | exact (Forall_map_inv _ _ _ Mx2)].
Qed.

(** C4 (counterexample): with no checkpoint at all, the default lookup
    [aget_tuple] finds nothing and [get_messages] returns the empty list
    instead of failing with NotFound. *)
Lemma get_messages_no_checkpoint_defaults :
  aget_tuple empty_store "t1" "" None = None /\
  checkpoints_of empty_store "t1" "" = [] /\
  get_messages empty_store "t1" 0 = [].
Proof. repeat split; reflexivity. Qed.

(** C4 (amended): [get_checkpoint] with an explicit id fails with 404
    exactly when no checkpoint of the conversation has that id, and
    otherwise returns that checkpoint's detail; [get_messages] (no id)
    never fails: it returns the messages of the checkpoint [aget_tuple]
    resolves, and the empty list when the conversation has no checkpoint. *)
Theorem get_checkpoint_not_found_iff (st : Store) (t cid : string) (now : Z) :
  match find_checkpoint st t "" cid with
  | None => get_checkpoint st t cid now =
              inl (HTTPException 404 "Checkpoint not found")
  | Some c =>
      exists d, get_checkpoint st t cid now = inr d /\
        cd_checkpoint_id d = cid /\
        cd_parent_checkpoint_id d = c_parent c /\
        map m_content (cd_messages d) = raw_messages c
  end /\
  match checkpoints_of st t "" with
  | [] => get_messages st t now = []
  | _ :: _ =>
      get_messages st t now =
        match aget_tuple st t "" None with
        | Some c => map (convert_message now) (raw_messages c)
        | None => []
        end
  end.
Proof.
  split.
  - unfold get_checkpoint, aget_tuple.
    destruct (find_checkpoint st t "" cid) as [c|]; [|reflexivity].
    eexists; split; [reflexivity|]. simpl. split; [reflexivity|].
    split; [reflexivity|].
    induction (raw_messages c); simpl; congruence.
  - unfold get_messages.
    destruct (checkpoints_of st t "") eqn:E; [|reflexivity].
    unfold aget_tuple, find_checkpoint. rewrite E. simpl.
    destruct (active_branch st t "") as [b|]; [|reflexivity].
    destruct (b_head b); reflexivity.
Qed.

(** C5 (counterexample): an empty name is supplied, yet [fork_branch]
    names the branch [fork-<short-id>], not the supplied [""]. *)
Lemma fork_branch_empty_name_replaced :
  match fork_branch st_c1 "t1" (mkForkRequest "c0" (Some "")) "0123456789ab" 120 with
  | inr (b, _) => b_name b = "fork-01234567" /\ b_name b <> ""
  | inl _ => False
  end.
Proof. simpl. split; [reflexivity | discriminate]. Qed.

(** C5 (amended): [fork_branch] fails with 404 exactly when the source
    checkpoint does not exist; otherwise it returns the branch with the
    drawn id, fork point and head the source checkpoint, inactive, named
    by the supplied name when it is a non-empty string and
    [fork-<first 8 chars of the id>] when the name is absent or empty. *)
Theorem fork_branch_result (st : Store) (t : string) (req : ForkRequest)
    (bid : string) (now : Z) :
  match find_checkpoint st t "" (fr_checkpoint_id req) with
  | None => fork_branch st t req bid now =
              inl (HTTPException 404 "Checkpoint not found")
  | Some _ =>
      exists b st', fork_branch st t req bid now = inr (b, st') /\
        b_id b = bid /\
        b_fork_point b = Some (fr_checkpoint_id req) /\
        b_head b = Some (fr_checkpoint_id req) /\
        b_is_active b = false /\
        ((exists n, fr_name req = Some n /\ n <> "" /\ b_name b = n) \/
         ((fr_name req = None \/ fr_name req = Some "") /\
          b_name b = "fork-" ++ substring 0 8 bid))
  end.
Proof.
  unfold fork_branch, aget_tuple.
  destruct (find_checkpoint st t "" (fr_checkpoint_id req)); [|reflexivity].
  do 2 eexists; split; [reflexivity|]. simpl.
  repeat split; try reflexivity.
  unfold py_or. destruct (fr_name req) as [n|].
  - destruct (String.eqb_spec n "") as [->|Hn].
    + right; split; [right; reflexivity | reflexivity].
    + left; exists n; repeat split; auto.
  - right; split; [left; reflexivity | reflexivity].
Qed.

(** ** Branch rewriting lemmas *)

Lemma filter_map_comm (f : Branch -> Branch) (p : Branch -> bool)
    (l : list Branch) :
  (forall b, p (f b) = p b) -> filter p (map f l) = map f (filter p l).
Proof.
  intro Hf; induction l as [|b l IH]; simpl; [reflexivity|].
  rewrite Hf. destruct (p b); simpl; rewrite IH; reflexivity.
Qed.

Lemma set_active_flag_conv (t ns bid t' ns' : string) (b : Branch) :
  br_in_conv t' ns' (set_active_flag t ns bid b) = br_in_conv t' ns' b.
Proof. unfold set_active_flag. destruct (br_in_conv t ns b); reflexivity. Qed.

Lemma set_head_conv (t ns cid t' ns' : string) (b : Branch) :
  br_in_conv t' ns' (set_head t ns cid b) = br_in_conv t' ns' b.
Proof. unfold set_head. destruct (br_in_conv t ns b && b_is_active b); reflexivity. Qed.

Lemma branches_of_set_active (st : Store) (t ns bid t' ns' : string) :
  filter (br_in_conv t' ns') (map (set_active_flag t ns bid) (s_branches st)) =
  map (set_active_flag t ns bid) (branches_of st t' ns').
Proof. apply filter_map_comm. intro; apply set_active_flag_conv. Qed.

Lemma branches_of_set_head (st : Store) (t ns cid t' ns' : string) :
  filter (br_in_conv t' ns') (map (set_head t ns cid) (s_branches st)) =
  map (set_head t ns cid) (branches_of st t' ns').
Proof. apply filter_map_comm. intro; apply set_head_conv. Qed.

Lemma filter_all_true {A} (p : A -> bool) (l : list A) :
  Forall (fun x => p x = true) (filter p l).
Proof.
  induction l as [|x l IH]; simpl; [constructor|].
  destruct (p x) eqn:E; [constructor|]; auto.
Qed.

(** Inside the conversation, the active flag becomes [b_id b = bid]. *)
Lemma find_active_after_set (t ns bid : string) (l : list Branch) :
  Forall (fun b => br_in_conv t ns b = true) l ->
  find b_is_active (map (set_active_flag t ns bid) l) =
  option_map (set_active_flag t ns bid)
    (find (fun b => String.eqb (b_id b) bid) l).
Proof.
  induction l as [|b l IH]; intro H; simpl; [reflexivity|].
  inversion H as [|? ? Hb Hl]; subst.
  unfold set_active_flag at 1. rewrite Hb. simpl.
  destruct (String.eqb (b_id b) bid); [reflexivity|].
  apply IH; exact Hl.
Qed.

Lemma existsb_id_in (bid : string) (l : list Branch) :
  existsb (fun b => String.eqb (b_id b) bid) l = true <-> In bid (map b_id l).
Proof.
  rewrite existsb_exists. split.
  - intros [b [Hin Hb]]. apply String.eqb_eq in Hb. subst.
    apply in_map; exact Hin.
  - intro H. apply in_map_iff in H as [b [Hb Hin]].
    exists b; split; [exact Hin|]. apply String.eqb_eq; exact Hb.
Qed.

(** C6: [switch_branch] fails with 404 exactly when no branch of the
    conversation has the id; on success the current head is the head of
    that branch, and the returned messages are read from the checkpoint at
    that head. *)
Theorem switch_branch_spec (st : Store) (t bid : string) (now : Z) :
  match switch_branch st t bid now with
  | inl e => e = HTTPException 404 "Branch not found" /\
             ~ In bid (map b_id (branches_of st t ""))
  | inr (resp, st') =>
      exists b,
        find (fun b => String.eqb (b_id b) bid) (branches_of st t "") = Some b /\
        current_head st' t "" = b_head b /\
        sw_messages resp =
          map (convert_message now)
            (match b_head b with
             | Some h => match find_checkpoint st' t "" h with
                         | Some c => raw_messages c
                         | None => []
                         end
             | None => []
             end)
  end.
Proof.
  unfold switch_branch, cypher_set_active_branch.
  destruct (existsb (fun b => String.eqb (b_id b) bid) (branches_of st t ""))
    eqn:E.
  - apply existsb_id_in in E.
    assert (Hf : exists b, find (fun b => String.eqb (b_id b) bid)
                             (branches_of st t "") = Some b).
    { destruct (find (fun b => String.eqb (b_id b) bid) (branches_of st t ""))
        eqn:F; [eexists; reflexivity|].
      exfalso. apply in_map_iff in E as [b [Hb Hin]].
      apply (find_none _ _ F) in Hin. rewrite Hb, String.eqb_refl in Hin.
      discriminate. }
    destruct Hf as [b Hf].
    assert (Ha : active_branch
                   (mkStore (s_checkpoints st)
                      (map (set_active_flag t "" bid) (s_branches st))) t "" =
                 Some (set_active_flag t "" bid b)).
    { unfold active_branch, branches_of. simpl.
      rewrite branches_of_set_active, find_active_after_set, Hf;
        [reflexivity | apply filter_all_true]. }
    assert (Hh : b_head (set_active_flag t "" bid b) = b_head b).
    { unfold set_active_flag; destruct (br_in_conv t "" b); reflexivity. }
    exists b. split; [exact Hf|].
    unfold current_head. rewrite Ha, Hh. split; [reflexivity|].
    simpl. unfold aget_tuple. rewrite Ha, Hh.
    destruct (b_head b); [|reflexivity].
    destruct (find_checkpoint _ t "" s); reflexivity.
  - split; [reflexivity|]. intro H. apply existsb_id_in in H. congruence.
Qed.

Lemma find_app_inactive (l : list Branch) (r : Branch) :
  b_is_active r = false -> find b_is_active (l ++ [r]) = find b_is_active l.
Proof.
  intro Hr; induction l as [|b l IH]; simpl.
  - rewrite Hr; reflexivity.
  - destruct (b_is_active b); [reflexivity | exact IH].
Qed.

(** C7: a successful [fork_branch] leaves every checkpoint as it was and
    only appends one new, inactive branch record, the one it returns: the
    active branch of every conversation, with its head, is unchanged. *)
Theorem fork_branch_additive (st : Store) (t : string) (req : ForkRequest)
    (bid : string) (now : Z) (r : Branch) (st' : Store) :
  fork_branch st t req bid now = inr (r, st') ->
  s_checkpoints st' = s_checkpoints st /\
  s_branches st' = (s_branches st ++ [r])%list /\
  b_id r = bid /\ b_is_active r = false /\
  (forall t' ns' cid,
      find_checkpoint st' t' ns' cid = find_checkpoint st t' ns' cid) /\
  (forall t' ns', active_branch st' t' ns' = active_branch st t' ns').
Proof.
  unfold fork_branch.
  destruct (aget_tuple st t "" (Some (fr_checkpoint_id req))); [|discriminate].
  intro H. inversion H; subst; clear H.
  repeat split; try reflexivity.
  intros t' ns'. unfold active_branch, branches_of; simpl.
  rewrite filter_app. simpl.
  destruct (br_in_conv t' ns' _); simpl; [|rewrite app_nil_r; reflexivity].
  apply find_app_inactive; reflexivity.
Qed.

Lemma fork_branch_additive_witness :
  fork_branch st_c1 "t1" (mkForkRequest "c0" (Some "alt")) "b1" 120 =
    inr (mkBranch "b1" "t1" "" "alt" 120 (Some "c0") false (Some "c0"),
         cypher_create_branch st_c1 "t1" "" "b1" "alt" "c0" 120) /\
  active_branch (cypher_create_branch st_c1 "t1" "" "b1" "alt" "c0" 120) "t1" "" =
    active_branch st_c1 "t1" "".
Proof.
  split; [reflexivity|].
  apply (fork_branch_additive st_c1 "t1" (mkForkRequest "c0" (Some "alt")) "b1" 120
           (mkBranch "b1" "t1" "" "alt" 120 (Some "c0") false (Some "c0"))).
  reflexivity.
Defined.

(** C9: [get_checkpoint_tree] returns one node per checkpoint of the
    conversation, whatever branch it lies on, in the same order, with its
    parent id, annotated with a branch of the conversation whose fork
    point is that checkpoint when there is one (and none otherwise),
    together with all branches of the conversation. *)
Theorem get_checkpoint_tree_spec (st : Store) (t : string) :
  let tr := get_checkpoint_tree st t in
  map n_checkpoint_id (tree_nodes tr) = map c_id (checkpoints_of st t "") /\
  map n_parent_id (tree_nodes tr) = map c_parent (checkpoints_of st t "") /\
  Forall2
    (fun n c =>
       match n_branch_id n with
       | Some x => exists b, In b (branches_of st t "") /\ b_id b = x /\
                     b_fork_point b = Some (c_id c) /\ n_branch_name n = Some (b_name b)
       | None => n_branch_name n = None /\
                 forall b, In b (branches_of st t "") -> b_fork_point b <> Some (c_id c)
       end)
    (tree_nodes tr) (checkpoints_of st t "") /\
  tree_branches tr = branches_of st t "".
Proof.
  simpl. unfold cypher_get_checkpoint_tree, cypher_list_branches.
  set (B := branches_of st t "").
  induction (checkpoints_of st t "") as [|c l IH]; simpl.
  - repeat split; constructor.
  - destruct IH as [I1 [I2 [I3 I4]]].
    rewrite I1, I2. split; [reflexivity|]. split; [reflexivity|].
    split; [|exact I4].
    constructor; [|exact I3]. simpl.
    set (p := fun b => match b_fork_point b with
                       | Some fp => String.eqb fp (c_id c)
                       | None => false
                       end).
    destruct (find p B) as [b|] eqn:F; simpl.
    + exists b. apply find_some in F as [Hin Hp].
      repeat split; auto. unfold p in Hp.
      destruct (b_fork_point b) as [fp|]; [|discriminate].
      apply String.eqb_eq in Hp; subst; reflexivity.
    + split; [reflexivity|]. intros b Hin Hfp.
      apply (find_none _ _ F) in Hin. unfold p in Hin. rewrite Hfp in Hin.
      rewrite String.eqb_refl in Hin. discriminate.
Qed.

Lemma set_head_after_set_active_other (t cid bid : string) (l : list Branch) :
  ~ In bid (map b_id l) ->
  map (set_head t "" cid) (map (set_active_flag t "" bid) l) =
  map (set_active_flag t "" bid) l.
Proof.
  induction l as [|b l IH]; intro Hn; simpl; [reflexivity|].
  simpl in Hn. rewrite IH by tauto. f_equal.
  unfold set_active_flag, set_head.
  destruct (br_in_conv t "" b) eqn:E; simpl.
  - unfold br_in_conv in *; simpl. rewrite E.
    destruct (String.eqb_spec (b_id b) bid); [tauto | reflexivity].
  - rewrite E; reflexivity.
Qed.

Lemma create_branch_in_conv (st : Store) (t bid name cid : string) (now : Z) :
  existsb (fun b => String.eqb (b_id b) bid)
    (branches_of (cypher_create_branch st t "" bid name cid now) t "") = true.
Proof.
  apply existsb_id_in. unfold branches_of, cypher_create_branch; simpl.
  rewrite filter_app, map_app. apply in_or_app; right.
  unfold br_in_conv; simpl. rewrite !String.eqb_refl. simpl. left; reflexivity.
Qed.

Lemma set_active_created (st : Store) (t bid name cid : string) (now : Z) :
  cypher_set_active_branch (cypher_create_branch st t "" bid name cid now) t "" bid =
  (Some bid,
   mkStore (s_checkpoints st)
     (map (set_active_flag t "" bid)
        (s_branches st ++ [mkBranch bid t "" name now (Some cid) false (Some cid)]))).
Proof.
  unfold cypher_set_active_branch. rewrite create_branch_in_conv. reflexivity.
Qed.

Lemma update_head_after_activate (st : Store) (t bid name cid : string) (now : Z) :
  ~ In bid (map b_id (s_branches st)) ->
  let st2 := mkStore (s_checkpoints st)
     (map (set_active_flag t "" bid)
        (s_branches st ++ [mkBranch bid t "" name now (Some cid) false (Some cid)])) in
  cypher_update_branch_head st2 t "" cid = st2.
Proof.
  intros Hfresh st2. unfold st2, cypher_update_branch_head; simpl. f_equal.
  rewrite !map_app, set_head_after_set_active_other by exact Hfresh.
  f_equal. unfold set_active_flag, set_head, br_in_conv; simpl.
  rewrite !String.eqb_refl. reflexivity.
Qed.

(** C2: with a freshly drawn branch id, [time_travel] leaves the store
    exactly as [fork_branch] followed by [switch_branch] to the new branch
    does (both fail with the same 404 when the checkpoint is missing), and
    reports the same branch id and name. *)
Theorem time_travel_is_fork_then_switch (st : Store) (t cid : string)
    (name : option string) (bid : string) (now : Z) :
  ~ In bid (map b_id (s_branches st)) ->
  match fork_branch st t (mkForkRequest cid name) bid now with
  | inl e => time_travel st t (mkTimeTravelRequest cid name) bid now = inl e
  | inr (b, st1) =>
      match switch_branch st1 t bid now with
      | inr (_, st2) =>
          exists r, time_travel st t (mkTimeTravelRequest cid name) bid now =
                      inr (r, st2) /\
                    ttr_branch_id r = b_id b /\ ttr_branch_name r = b_name b
      | inl _ => False
      end
  end.
Proof.
  intro Hfresh. unfold fork_branch, time_travel. simpl fr_checkpoint_id.
  simpl tt_checkpoint_id. simpl fr_name. simpl tt_branch_name.
  destruct (aget_tuple st t "" (Some cid)) as [c|]; [|reflexivity].
  unfold switch_branch. rewrite set_active_created.
  eexists; split.
  - unfold run_writes, time_travel_writes; simpl. rewrite set_active_created. simpl.
    rewrite update_head_after_activate by exact Hfresh. reflexivity.
  - split; reflexivity.
Qed.

Lemma time_travel_is_fork_then_switch_witness :
  ~ In "b1" (map b_id (s_branches st_c1)) /\
  match fork_branch st_c1 "t1" (mkForkRequest "c0" None) "b1" 120 with
  | inl e => time_travel st_c1 "t1" (mkTimeTravelRequest "c0" None) "b1" 120 = inl e
  | inr (b, st1) =>
      match switch_branch st1 "t1" "b1" 120 with
      | inr (_, st2) =>
          exists r, time_travel st_c1 "t1" (mkTimeTravelRequest "c0" None) "b1" 120 =
                      inr (r, st2) /\
                    ttr_branch_id r = b_id b /\ ttr_branch_name r = b_name b
      | inl _ => False
      end
  end.
Proof.
  assert (H : ~ In "b1" (map b_id (s_branches st_c1)))
    by (simpl; intros [H|H]; [discriminate | exact H]).
  split; [exact H|].
  exact (time_travel_is_fork_then_switch st_c1 "t1" "c0" None "b1" 120 H).
Defined.

Lemma active_branch_create (st : Store) (t bid name cid : string) (now : Z)
    (t' ns' : string) :
  active_branch (cypher_create_branch st t "" bid name cid now) t' ns' =
  active_branch st t' ns'.
Proof.
  unfold active_branch, branches_of, cypher_create_branch; simpl.
  rewrite filter_app. simpl.
  destruct (br_in_conv t' ns' _); simpl; [|rewrite app_nil_r; reflexivity].
  apply find_app_inactive; reflexivity.
Qed.

Lemma set_active_flag_head (t ns bid : string) (b : Branch) :
  b_head (set_active_flag t ns bid b) = b_head b.
Proof. unfold set_active_flag; destruct (br_in_conv t ns b); reflexivity. Qed.

Lemma set_active_flag_id (t ns bid : string) (b : Branch) :
  b_id (set_active_flag t ns bid b) = b_id b.
Proof. unfold set_active_flag; destruct (br_in_conv t ns b); reflexivity. Qed.

Lemma set_active_others_inactive (t ns bid : string) (l : list Branch) :
  Forall (fun b => br_in_conv t ns b = true) l ->
  ~ In bid (map b_id l) ->
  filter b_is_active (map (set_active_flag t ns bid) l) = [].
Proof.
  induction l as [|b l IH]; intros Hc Hn; simpl; [reflexivity|].
  inversion Hc as [|? ? Hb Hl]; subst. simpl in Hn.
  unfold set_active_flag at 1. rewrite Hb. simpl.
  destruct (String.eqb_spec (b_id b) bid); [tauto|]. apply IH; tauto.
Qed.

(** C1 (counterexample): when the second [session.run] of [time_travel]
    raises, the branch created by the first one stays in the store: the
    store is not the one before the call. *)
Lemma time_travel_interrupted_keeps_branch :
  match time_travel_interrupted 1 st_c1 "t1" (mkTimeTravelRequest "c0" None) "b1" 120 with
  | inr st' => st' <> st_c1 /\ map b_id (s_branches st') = ["b0"; "b1"]
  | inl _ => False
  end.
Proof.
  simpl. split; [|reflexivity].
  intro H. apply (f_equal (fun s => List.length (s_branches s))) in H.
  discriminate.
Qed.

(** C1 (amended): the three writes of [time_travel] commit one by one.
    A failure before the first write leaves the store as it was; a failure
    after the create-branch write leaves the pre-call checkpoints and
    branches plus one new inactive branch (fork point and head the source)
    and the active branch of every conversation unchanged; a failure after
    the set-active write leaves the new branch (freshly drawn id) as the
    only active branch of the conversation, every checkpoint and every
    branch head unchanged and the new branch's head at the source. *)
Theorem time_travel_interrupted_state (st : Store) (t : string)
    (req : TimeTravelRequest) (bid : string) (now : Z) :
  ~ In bid (map b_id (s_branches st)) ->
  match find_checkpoint st t "" (tt_checkpoint_id req) with
  | None => forall k, time_travel_interrupted k st t req bid now =
                        inl (HTTPException 404 "Checkpoint not found")
  | Some _ =>
      time_travel_interrupted 0 st t req bid now = inr st /\
      (exists nb st1,
          time_travel_interrupted 1 st t req bid now = inr st1 /\
          s_checkpoints st1 = s_checkpoints st /\
          s_branches st1 = (s_branches st ++ [nb])%list /\
          b_id nb = bid /\ b_is_active nb = false /\
          b_fork_point nb = Some (tt_checkpoint_id req) /\
          b_head nb = Some (tt_checkpoint_id req) /\
          (forall t' ns', active_branch st1 t' ns' = active_branch st t' ns')) /\
      (exists st2,
          time_travel_interrupted 2 st t req bid now = inr st2 /\
          s_checkpoints st2 = s_checkpoints st /\
          map b_id (s_branches st2) = (map b_id (s_branches st) ++ [bid])%list /\
          map b_head (s_branches st2) =
            (map b_head (s_branches st) ++ [Some (tt_checkpoint_id req)])%list /\
          map b_id (filter b_is_active (branches_of st2 t "")) = [bid])
  end.
Proof.
  intro Hfresh. unfold time_travel_interrupted, aget_tuple.
  destruct (find_checkpoint st t "" (tt_checkpoint_id req)) as [c|];
    [|intro; reflexivity].
  set (name := py_or (tt_branch_name req) (default_branch_name bid)).
  set (cid := tt_checkpoint_id req).
  split; [reflexivity|]. split.
  - do 2 eexists. split; [reflexivity|]. simpl.
    repeat split; try reflexivity. apply active_branch_create.
  - eexists. split; [reflexivity|]. simpl. rewrite set_active_created. simpl.
    rewrite !map_map, !map_app. simpl.
    rewrite (map_ext _ _ (set_active_flag_id t "" bid)),
            (map_ext _ _ (set_active_flag_head t "" bid)).
    rewrite set_active_flag_id, set_active_flag_head.
    split; [reflexivity|]. split; [reflexivity|]. split; [reflexivity|].
    unfold branches_of; simpl. rewrite filter_app, branches_of_set_active.
    fold (branches_of st t ""). rewrite filter_app.
    rewrite set_active_others_inactive;
      [| apply filter_all_true
       | intro Hin; apply Hfresh; unfold branches_of in Hin;
         apply in_map_iff in Hin as [b [Hb Hin]]; apply filter_In in Hin;
         rewrite <- Hb; apply in_map; tauto].
    unfold set_active_flag, br_in_conv; simpl. rewrite !String.eqb_refl.
    reflexivity.
Qed.

Lemma branch_inv_empty : branch_inv empty_store.
Proof. intros t ns. split; [constructor | left; split; reflexivity]. Qed.

Lemma br_in_conv_eq (t ns t' ns' : string) (b : Branch) :
  br_in_conv t ns b = true -> br_in_conv t' ns' b = true -> t = t' /\ ns = ns'.
Proof.
  unfold br_in_conv. rewrite !andb_true_iff, !String.eqb_eq.
  intros [-> ->] [-> ->]; split; reflexivity.
Qed.

Lemma in_conv_eq (t ns t' ns' : string) (c : Checkpoint) :
  in_conv t ns c = true -> in_conv t' ns' c = true -> t = t' /\ ns = ns'.
Proof.
  unfold in_conv. rewrite !andb_true_iff, !String.eqb_eq.
  intros [-> ->] [-> ->]; split; reflexivity.
Qed.

Lemma conv_ids_sub (st : Store) (t ns bid : string) :
  In bid (map b_id (branches_of st t ns)) -> In bid (map b_id (s_branches st)).
Proof.
  unfold branches_of. intro H. apply in_map_iff in H as [b [Hb Hin]].
  apply filter_In in Hin. subst. apply in_map; tauto.
Qed.

Lemma find_checkpoint_nonempty (st : Store) (t ns cid : string) (c : Checkpoint) :
  find_checkpoint st t ns cid = Some c -> checkpoints_of st t ns <> [].
Proof.
  unfold find_checkpoint. intros H E. rewrite E in H. discriminate.
Qed.

Lemma active_count_app_inactive (l : list Branch) (b : Branch) :
  b_is_active b = false -> active_count (l ++ [b]) = active_count l.
Proof.
  intro H. unfold active_count. rewrite filter_app. simpl. rewrite H.
  rewrite app_nil_r; reflexivity.
Qed.

Lemma map_preserving (f : Branch -> Branch) (l : list Branch) :
  (forall b, b_id (f b) = b_id b) -> (forall b, b_is_active (f b) = b_is_active b) ->
  map b_id (map f l) = map b_id l /\ active_count (map f l) = active_count l.
Proof.
  intros Hi Ha. unfold active_count.
  induction l as [|b l [IH1 IH2]]; simpl; [split; reflexivity|].
  rewrite Hi, Ha, IH1. split; [reflexivity|].
  destruct (b_is_active b); simpl; rewrite IH2; reflexivity.
Qed.

Lemma branch_inv_create (st : Store) (t bid name cid : string) (now : Z)
    (c : Checkpoint) :
  branch_inv st -> fresh_branch_id bid st ->
  find_checkpoint st t "" cid = Some c ->
  branch_inv (cypher_create_branch st t "" bid name cid now).
Proof.
  intros Hinv Hfresh Hc t' ns'.
  unfold branches_of, checkpoints_of, cypher_create_branch; simpl.
  rewrite filter_app. fold (branches_of st t' ns'). fold (checkpoints_of st t' ns').
  set (nb := mkBranch bid t "" name now (Some cid) false (Some cid)).
  assert (F : filter (br_in_conv t' ns') [nb] =
              if br_in_conv t' ns' nb then [nb] else []) by reflexivity.
  rewrite F.
  destruct (br_in_conv t' ns' nb) eqn:E; [|rewrite app_nil_r; exact (Hinv t' ns')].
  assert (Ht : t = t' /\ "" = ns').
  { apply (br_in_conv_eq t "" t' ns' nb);
      [unfold nb, br_in_conv; simpl; rewrite !String.eqb_refl; reflexivity | exact E]. }
  destruct Ht as [<- <-].
  destruct (Hinv t "") as [ND [[_ Hcs] | H1]].
  - exfalso. exact (find_checkpoint_nonempty _ _ _ _ _ Hc Hcs).
  - split.
    + rewrite map_app. apply NoDup_app; [exact ND | repeat constructor; simpl; tauto |].
      intros x Hx Hx'. simpl in Hx'. destruct Hx' as [<-|[]].
      apply Hfresh. exact (conv_ids_sub _ _ _ _ Hx).
    + right. rewrite active_count_app_inactive by reflexivity. exact H1.
Qed.

Lemma set_active_count (t ns bid : string) (l : list Branch) :
  Forall (fun b => br_in_conv t ns b = true) l ->
  NoDup (map b_id l) -> In bid (map b_id l) ->
  active_count (map (set_active_flag t ns bid) l) = 1%nat.
Proof.
  induction l as [|b l IH]; intros Hc ND Hin; [destruct Hin|].
  inversion Hc as [|? ? Hb Hl]; subst. simpl in ND, Hin.
  inversion ND as [|? ? Hn ND']; subst.
  unfold active_count; simpl. unfold set_active_flag at 1. rewrite Hb. simpl.
  destruct (String.eqb_spec (b_id b) bid) as [<-|Hne].
  - simpl. f_equal. rewrite set_active_others_inactive by assumption.
    reflexivity.
  - apply IH; [exact Hl | exact ND' | destruct Hin as [E|E]; [congruence | exact E]].
Qed.

Lemma set_active_other_conv (t ns bid t' ns' : string) (l : list Branch) :
  Forall (fun b => br_in_conv t' ns' b = true) l ->
  (String.eqb t' t && String.eqb ns' ns)%bool = false ->
  map (set_active_flag t ns bid) l = l.
Proof.
  intros Hc Hne. induction l as [|b l IH]; simpl; [reflexivity|].
  inversion Hc as [|? ? Hb Hl]; subst. rewrite IH by exact Hl. f_equal.
  unfold set_active_flag. destruct (br_in_conv t ns b) eqn:E; [|reflexivity].
  destruct (br_in_conv_eq _ _ _ _ _ Hb E) as [-> ->].
  rewrite !String.eqb_refl in Hne. discriminate.
Qed.

Lemma branch_inv_set_active (st : Store) (t ns bid : string) :
  branch_inv st -> branch_inv (snd (cypher_set_active_branch st t ns bid)).
Proof.
  intro Hinv. unfold cypher_set_active_branch.
  destruct (existsb (fun b => String.eqb (b_id b) bid) (branches_of st t ns))
    eqn:Ex; simpl; [|exact Hinv].
  intros t' ns'.
  assert (Hb : branches_of (mkStore (s_checkpoints st)
                              (map (set_active_flag t ns bid) (s_branches st))) t' ns' =
               map (set_active_flag t ns bid) (branches_of st t' ns'))
    by apply branches_of_set_active.
  rewrite Hb. change (checkpoints_of (mkStore (s_checkpoints st) _) t' ns')
    with (checkpoints_of st t' ns').
  destruct (Hinv t' ns') as [ND H].
  assert (Hids : map b_id (map (set_active_flag t ns bid) (branches_of st t' ns')) =
                 map b_id (branches_of st t' ns')).
  { rewrite map_map. apply map_ext. apply set_active_flag_id. }
  split; [rewrite Hids; exact ND|].
  destruct (String.eqb t' t && String.eqb ns' ns)%bool eqn:Eq.
  - apply andb_true_iff in Eq as [E1 E2].
    apply String.eqb_eq in E1, E2. subst t' ns'.
    right. apply set_active_count;
      [apply filter_all_true | exact ND | apply existsb_id_in; exact Ex].
  - rewrite (set_active_other_conv t ns bid t' ns');
      [exact H | apply filter_all_true | exact Eq].
Qed.

Lemma set_head_id (t ns cid : string) (b : Branch) :
  b_id (set_head t ns cid b) = b_id b.
Proof. unfold set_head; destruct (br_in_conv t ns b && b_is_active b); reflexivity. Qed.

Lemma set_head_active (t ns cid : string) (b : Branch) :
  b_is_active (set_head t ns cid b) = b_is_active b.
Proof. unfold set_head; destruct (br_in_conv t ns b && b_is_active b); reflexivity. Qed.

Lemma branch_inv_update_head (st : Store) (t ns cid : string) :
  branch_inv st -> branch_inv (cypher_update_branch_head st t ns cid).
Proof.
  intros Hinv t' ns'.
  assert (Hb : branches_of (cypher_update_branch_head st t ns cid) t' ns' =
               map (set_head t ns cid) (branches_of st t' ns'))
    by apply branches_of_set_head.
  rewrite Hb; clear Hb. change (checkpoints_of (cypher_update_branch_head st t ns cid) t' ns')
    with (checkpoints_of st t' ns').
  destruct (map_preserving (set_head t ns cid) (branches_of st t' ns')
              (set_head_id t ns cid) (set_head_active t ns cid)) as [Hi Ha].
  destruct (Hinv t' ns') as [ND [[Hb Hc] | H1]].
  - rewrite Hi. split; [exact ND|]. rewrite Hb. left; split; [reflexivity | exact Hc].
  - rewrite Hi, Ha. split; [exact ND | right; exact H1].
Qed.

Lemma branch_inv_add_checkpoint (st : Store) (c : Checkpoint) (t ns : string) :
  branch_inv st -> in_conv t ns c = true -> branches_of st t ns <> [] ->
  branch_inv (mkStore (s_checkpoints st ++ [c]) (s_branches st)).
Proof.
  intros Hinv Hc Hne t' ns'.
  change (branches_of (mkStore _ (s_branches st)) t' ns') with (branches_of st t' ns').
  unfold checkpoints_of at 1; simpl. rewrite filter_app. fold (checkpoints_of st t' ns').
  destruct (Hinv t' ns') as [ND [[Hb Hcs]|H1]]; split; try exact ND; [left|right; exact H1].
  split; [exact Hb|]. rewrite Hcs. simpl.
  destruct (in_conv t' ns' c) eqn:E; [|reflexivity].
  destruct (in_conv_eq _ _ _ _ _ Hc E) as [<- <-]. contradiction.
Qed.

Lemma branch_inv_append (st : Store) (t ns cid : string) (step : Z)
    (source : string) (msgs : list string) (now : Z) (rb : string) :
  branch_inv st -> fresh_branch_id rb st ->
  branch_inv (append st t ns cid step source msgs now rb).
Proof.
  intros Hinv Hfresh. unfold append.
  destruct (branches_of st t ns) as [|b0 l] eqn:Eb.
  - set (root := mkBranch rb t ns "main" now None true (Some cid)).
    set (cp := mkCheckpoint t ns cid (option_map c_id (last_opt (checkpoints_of st t ns)))
                 (Some step) (Some source) (Some msgs) now).
    intros t' ns'.
    unfold branches_of at 1 2 3, checkpoints_of at 1; simpl.
    rewrite !filter_app. fold (branches_of st t' ns'). fold (checkpoints_of st t' ns').
    assert (F1 : filter (br_in_conv t' ns') [root] =
                 if br_in_conv t' ns' root then [root] else []) by reflexivity.
    assert (F2 : filter (in_conv t' ns') [cp] =
                 if in_conv t' ns' cp then [cp] else []) by reflexivity.
    assert (E12 : br_in_conv t' ns' root = in_conv t' ns' cp) by reflexivity.
    rewrite F1, F2, <- E12.
    destruct (br_in_conv t' ns' root) eqn:E.
    + destruct (br_in_conv_eq t ns t' ns' root) as [<- <-];
        [unfold root, br_in_conv; simpl; rewrite !String.eqb_refl; reflexivity | exact E |].
      rewrite Eb. simpl. split; [repeat constructor; simpl; tauto | right; reflexivity].
    + rewrite !app_nil_r. exact (Hinv t' ns').
  - apply branch_inv_update_head. apply branch_inv_add_checkpoint with t ns;
      [exact Hinv | | rewrite Eb; discriminate].
    unfold in_conv; simpl. rewrite !String.eqb_refl; reflexivity.
Qed.

Lemma branch_inv_time_travel_prefix (k : nat) (st : Store) (t : string)
    (req : TimeTravelRequest) (bid name : string) (now : Z) (c : Checkpoint) :
  branch_inv st -> fresh_branch_id bid st ->
  find_checkpoint st t "" (tt_checkpoint_id req) = Some c ->
  branch_inv (run_writes (firstn k (time_travel_writes t req bid name now)) st).
Proof.
  intros Hinv Hfresh Hc.
  assert (H1 := branch_inv_create st t bid name (tt_checkpoint_id req) now c
                  Hinv Hfresh Hc).
  destruct k as [|[|[|k]]]; simpl.
  - exact Hinv.
  - exact H1.
  - apply branch_inv_set_active; exact H1.
  - rewrite firstn_nil. simpl.
    apply branch_inv_update_head, branch_inv_set_active; exact H1.
Qed.

Lemma reachable_branch_inv (st : Store) : reachable st -> branch_inv st.
Proof.
  induction 1 as [| st t ns cid step source msgs now rb _ IH Hf
                  | st t req bid now b st' _ IH Hf Hr
                  | st t bid now r st' _ IH Hr
                  | st t req bid now r st' _ IH Hf Hr
                  | k st t req bid now st' _ IH Hf Hr].
  - exact branch_inv_empty.
  - apply branch_inv_append; assumption.
  - unfold fork_branch in Hr.
    destruct (aget_tuple st t "" (Some (fr_checkpoint_id req))) as [c|] eqn:Ec;
      [|discriminate].
    inversion Hr; subst. eapply branch_inv_create; [exact IH | exact Hf | exact Ec].
  - unfold switch_branch in Hr.
    destruct (cypher_set_active_branch st t "" bid) as [[x|] s'] eqn:E;
      [|discriminate].
    injection Hr as _ <-.
    replace s' with (snd (cypher_set_active_branch st t "" bid)) by (rewrite E; reflexivity).
    apply branch_inv_set_active; exact IH.
  - unfold time_travel in Hr.
    destruct (aget_tuple st t "" (Some (tt_checkpoint_id req))) as [c|] eqn:Ec;
      [|discriminate].
    inversion Hr; subst.
    exact (branch_inv_time_travel_prefix 3 st t req bid _ now c IH Hf Ec).
  - unfold time_travel_interrupted in Hr.
    destruct (aget_tuple st t "" (Some (tt_checkpoint_id req))) as [c|] eqn:Ec;
      [|discriminate].
    inversion Hr; subst.
    exact (branch_inv_time_travel_prefix k st t req bid _ now c IH Hf Ec).
Qed.

(** C8: in every store the operations can produce (appends, forks,
    switches, complete time travels and every state between two writes of
    a time travel), each conversation with at least one branch has exactly
    one active branch. *)
Theorem single_active_branch (st : Store) :
  reachable st ->
  forall t ns, branches_of st t ns = [] \/ active_count (branches_of st t ns) = 1%nat.
Proof.
  intros Hr t ns. destruct (reachable_branch_inv st Hr t ns) as [_ [[H _]|H]];
    [left | right]; exact H.
Qed.

Lemma single_active_branch_witness :
  reachable st_c1 /\
  (branches_of st_c1 "t1" "" = [] \/ active_count (branches_of st_c1 "t1" "") = 1%nat).
Proof.
  assert (H : reachable st_c1).
  { unfold st_c1. apply reach_append;
      [|unfold fresh_branch_id; simpl; intros [H|H]; [discriminate | exact H]].
    unfold st_c0. apply reach_append;
      [exact reach_empty | unfold fresh_branch_id; simpl; tauto]. }
  split; [exact H|]. exact (single_active_branch st_c1 H "t1" "").
Defined.

Lemma time_travel_interrupted_state_witness :
  ~ In "b1" (map b_id (s_branches st_c1)) /\
  match find_checkpoint st_c1 "t1" "" "c0" with
  | None => forall k, time_travel_interrupted k st_c1 "t1"
                        (mkTimeTravelRequest "c0" None) "b1" 120 =
                      inl (HTTPException 404 "Checkpoint not found")
  | Some _ =>
      time_travel_interrupted 0 st_c1 "t1" (mkTimeTravelRequest "c0" None) "b1" 120 =
        inr st_c1 /\
      (exists nb st1,
          time_travel_interrupted 1 st_c1 "t1" (mkTimeTravelRequest "c0" None) "b1" 120 =
            inr st1 /\
          s_checkpoints st1 = s_checkpoints st_c1 /\
          s_branches st1 = (s_branches st_c1 ++ [nb])%list /\
          b_id nb = "b1" /\ b_is_active nb = false /\
          b_fork_point nb = Some "c0" /\ b_head nb = Some "c0" /\
          (forall t' ns', active_branch st1 t' ns' = active_branch st_c1 t' ns')) /\
      (exists st2,
          time_travel_interrupted 2 st_c1 "t1" (mkTimeTravelRequest "c0" None) "b1" 120 =
            inr st2 /\
          s_checkpoints st2 = s_checkpoints st_c1 /\
          map b_id (s_branches st2) = (map b_id (s_branches st_c1) ++ ["b1"])%list /\
          map b_head (s_branches st2) =
            (map b_head (s_branches st_c1) ++ [Some "c0"])%list /\
          map b_id (filter b_is_active (branches_of st2 "t1" "")) = ["b1"])
  end.
Proof.
  assert (H : ~ In "b1" (map b_id (s_branches st_c1)))
    by (simpl; intros [H|H]; [discriminate | exact H]).
  split; [exact H|].
  exact (time_travel_interrupted_state st_c1 "t1" (mkTimeTravelRequest "c0" None)
           "b1" 120 H).
Defined.

(** ** Further properties of the routers and the agent module *)

Lemma desc_before_total (a b : option Z) :
  desc_before a b = false -> desc_before b a = true.
Proof.
  destruct a as [x|], b as [y|]; simpl; try discriminate; try reflexivity.
  intro H. apply Z.leb_gt in H. apply Z.leb_le. lia.
Qed.

Lemma insert_row_perm x l : Permutation (insert_row x l) (x :: l).
Proof.
  induction l as [|y r IH]; simpl; [reflexivity|].
  destruct (desc_before (row_last x) (row_last y)); [reflexivity|].
  rewrite IH. apply perm_swap.
Qed.

Lemma order_by_last_desc_perm l : Permutation (order_by_last_desc l) l.
Proof.
  induction l as [|x l IH]; simpl; [reflexivity|].
  rewrite insert_row_perm, IH. reflexivity.
Qed.

Lemma insert_row_hd y x r :
  HdRel row_rel y r -> row_rel y x -> HdRel row_rel y (insert_row x r).
Proof.
  destruct r as [|z r]; simpl; intros H1 H2; [constructor; exact H2|].
  destruct (desc_before (row_last x) (row_last z)); constructor;
    [exact H2 | inversion H1; assumption].
Qed.

Lemma insert_row_sorted x l : Sorted row_rel l -> Sorted row_rel (insert_row x l).
Proof.
  induction l as [|y r IH]; simpl; intro H; [repeat constructor|].
  destruct (desc_before (row_last x) (row_last y)) eqn:E.
  - constructor; [exact H | constructor; exact E].
  - inversion H as [|? ? Hr Hh]; subst. constructor; [apply IH; exact Hr|].
    apply insert_row_hd; [exact Hh | apply desc_before_total; exact E].
Qed.

Lemma order_by_last_desc_sorted l : Sorted row_rel (order_by_last_desc l).
Proof.
  induction l as [|x l IH]; simpl; [constructor|]. apply insert_row_sorted, IH.
Qed.

Lemma thread_ids_query (st : Store) (t : string) :
  In t (thread_ids st) ->
  exists r, thread_query st t = Some r.
Proof.
  unfold thread_ids, thread_query. intro H. apply nodup_In, in_map_iff in H.
  destruct H as [c [Hc Hin]].
  destruct (filter (fun c => String.eqb (c_thread c) t) (s_checkpoints st)) eqn:E;
    [|eexists; reflexivity].
  exfalso. assert (In c (filter (fun c => String.eqb (c_thread c) t) (s_checkpoints st)))
    by (apply filter_In; split; [exact Hin | apply String.eqb_eq; exact Hc]).
  rewrite E in H; exact H.
Qed.

Lemma list_threads_rows_spec (st : Store) :
  map fst (list_threads_rows st) = thread_ids st /\
  Forall (fun r => thread_query st (fst r) = Some (snd r)) (list_threads_rows st).
Proof.
  unfold list_threads_rows.
  assert (Hall : forall t, In t (thread_ids st) -> exists r, thread_query st t = Some r)
    by apply thread_ids_query.
  induction (thread_ids st) as [|t ts IH]; simpl; [split; constructor|].
  destruct (Hall t (or_introl eq_refl)) as [r Hr]. rewrite Hr. simpl.
  destruct IH as [I1 I2]; [intros; apply Hall; right; assumption|].
  rewrite I1. split; [reflexivity | constructor; [exact Hr | exact I2]].
Qed.

Lemma row_to_thread_get (st : Store) (now : Z) r :
  thread_query st (fst r) = Some (snd r) ->
  get_thread st (th_id (row_to_thread now r)) now = row_to_thread now r.
Proof.
  destruct r as [t [[mn mx] n]]. simpl. intro H. unfold get_thread. rewrite H.
  reflexivity.
Qed.

Lemma list_threads_ids (st : Store) (now : Z) :
  Permutation (map th_id (list_threads st now)) (thread_ids st).
Proof.
  unfold list_threads. rewrite map_map.
  assert (E : forall r, th_id (row_to_thread now r) = fst r)
    by (intros [t [[mn mx] n]]; reflexivity).
  rewrite (map_ext _ _ E). rewrite <- (proj1 (list_threads_rows_spec st)).
  apply Permutation_map, order_by_last_desc_perm.
Qed.

(** [list_threads] lists each thread that has a checkpoint exactly once,
    and no other, and each entry is what [get_thread] returns for it. *)
Theorem list_threads_agree_get_thread (st : Store) (now : Z) :
  NoDup (map th_id (list_threads st now)) /\
  (forall t, In t (map th_id (list_threads st now)) <->
             exists c, In c (s_checkpoints st) /\ c_thread c = t) /\
  Forall (fun th => get_thread st (th_id th) now = th) (list_threads st now).
Proof.
  pose proof (list_threads_ids st now) as P.
  split; [apply (Permutation_NoDup (Permutation_sym P)), NoDup_nodup|].
  split.
  - intro t. split.
    + intro H. apply (Permutation_in _ P) in H. unfold thread_ids in H.
      apply nodup_In, in_map_iff in H as [c [Hc Hin]]. exists c; tauto.
    + intros [c [Hin Hc]]. apply (Permutation_in _ (Permutation_sym P)).
      unfold thread_ids. apply nodup_In, in_map_iff. exists c; tauto.
  - unfold list_threads. apply Forall_map.
    pose proof (proj2 (list_threads_rows_spec st)) as F.
    apply (Permutation_Forall (Permutation_sym (order_by_last_desc_perm _))) in F.
    eapply Forall_impl; [|exact F]. intros r Hr. apply row_to_thread_get, Hr.
Qed.

(** [list_threads] is ordered by last activity, most recent first, and
    every listed thread has a last activity. *)
Theorem list_threads_most_recent_first (st : Store) (now : Z) :
  Forall (fun th => th_last_message_at th <> None) (list_threads st now) /\
  Sorted (fun a b => desc_before (th_last_message_at a) (th_last_message_at b) = true)
    (list_threads st now).
Proof.
  unfold list_threads.
  assert (E : forall r, th_last_message_at (row_to_thread now r) = row_last r)
    by (intros [t [[mn mx] n]]; reflexivity).
  split.
  - apply Forall_map.
    pose proof (proj2 (list_threads_rows_spec st)) as F.
    apply (Permutation_Forall (Permutation_sym (order_by_last_desc_perm _))) in F.
    eapply Forall_impl; [|exact F]. intros [t [[mn mx] n]] Hr. simpl in Hr |- *.
    unfold thread_query in Hr.
    destruct (filter _ (s_checkpoints st)) as [|c cs]; [discriminate|].
    injection Hr as _ <- _. simpl. discriminate.
  - pose proof (order_by_last_desc_sorted (list_threads_rows st)) as S.
    induction S as [|r l Sl IH Hd]; simpl; constructor; [exact IH|].
    destruct Hd as [|r' l' Hr]; simpl; constructor.
    rewrite !E. exact Hr.
Qed.

Lemma thread_query_none (st : Store) (t : string) :
  (forall c, In c (s_checkpoints st) -> c_thread c <> t) -> thread_query st t = None.
Proof.
  intro H. unfold thread_query.
  destruct (filter (fun c => String.eqb (c_thread c) t) (s_checkpoints st)) as [|c cs] eqn:E;
    [reflexivity|].
  exfalso. assert (Hc : In c (filter (fun c => String.eqb (c_thread c) t) (s_checkpoints st)))
    by (rewrite E; left; reflexivity).
  apply filter_In in Hc as [Hin Ht]. apply String.eqb_eq in Ht. exact (H c Hin Ht).
Qed.



Lemma filter_del_other (t t' : string) (l : list Checkpoint) :
  t' <> t ->
  filter (fun c => String.eqb (c_thread c) t')
    (filter (fun c => negb (String.eqb (c_thread c) t)) l) =
  filter (fun c => String.eqb (c_thread c) t') l.
Proof.
  intro Hne. induction l as [|c l IH]; simpl; [reflexivity|].
  destruct (String.eqb_spec (c_thread c) t) as [E|E]; simpl.
  - rewrite IH. destruct (String.eqb_spec (c_thread c) t'); [congruence | reflexivity].
  - destruct (String.eqb (c_thread c) t'); rewrite IH; reflexivity.
Qed.

Lemma filter_conv_del {A} (th ns : A -> string) (t t' ns' : string) (l : list A) :
  filter (fun x => String.eqb (th x) t' && String.eqb (ns x) ns')
    (filter (fun x => negb (String.eqb (th x) t)) l) =
  if String.eqb t' t then []
  else filter (fun x => String.eqb (th x) t' && String.eqb (ns x) ns') l.
Proof.
  induction l as [|x l IH]; simpl; [destruct (String.eqb t' t); reflexivity|].
  destruct (String.eqb_spec (th x) t) as [E|E]; simpl.
  - rewrite IH. destruct (String.eqb_spec t' t); [reflexivity|].
    destruct (String.eqb_spec (th x) t'); [congruence | reflexivity].
  - destruct (String.eqb_spec t' t) as [<-|Ht].
    + destruct (String.eqb_spec (th x) t'); [congruence|]. simpl. exact IH.
    + rewrite IH. reflexivity.
Qed.

(** [delete_thread] empties the thread: [get_thread] then returns the
    default thread, [list_threads] no longer lists it and no conversation
    of it has a branch or checkpoint left; every other thread reads the
    same as before. *)
Theorem delete_thread_removes (st : Store) (t : string) (now : Z) :
  let st' := snd (delete_thread st t) in
  get_thread st' t now = mkThread t (thread_name t) now None 0 /\
  ~ In t (map th_id (list_threads st' now)) /\
  (forall ns, branches_of st' t ns = [] /\ checkpoints_of st' t ns = []) /\
  (forall t', t' <> t ->
     get_thread st' t' now = get_thread st t' now /\
     forall ns, branches_of st' t' ns = branches_of st t' ns /\
                checkpoints_of st' t' ns = checkpoints_of st t' ns).
Proof.
  intro st'.
  assert (Hnone : forall c, In c (s_checkpoints st') -> c_thread c <> t).
  { intros c Hc. simpl in Hc. apply filter_In in Hc as [_ Hc].
    destruct (String.eqb_spec (c_thread c) t); [discriminate | assumption]. }
  split; [unfold get_thread; rewrite thread_query_none by exact Hnone; reflexivity|].
  split.
  - intro Hin. pose proof (list_threads_ids st' now) as P.
    apply (Permutation_in _ P) in Hin. unfold thread_ids in Hin.
    apply nodup_In, in_map_iff in Hin as [c [Hc Hin]]. exact (Hnone c Hin Hc).
  - split.
    + intro ns. unfold branches_of, checkpoints_of, br_in_conv, in_conv. simpl.
      rewrite (filter_conv_del b_thread b_ns), (filter_conv_del c_thread c_ns).
      rewrite String.eqb_refl. split; reflexivity.
    + intros t' Hne. split.
      * unfold get_thread, thread_query. simpl. rewrite filter_del_other by exact Hne.
        reflexivity.
      * intro ns. unfold branches_of, checkpoints_of, br_in_conv, in_conv. simpl.
        rewrite (filter_conv_del b_thread b_ns), (filter_conv_del c_thread c_ns).
        destruct (String.eqb_spec t' t); [contradiction|]. split; reflexivity.
Qed.

(** [convert_message] keeps the content (the [str] of a message without
    one), stamps the conversion time rather than a stored time, and sets
    [tool_calls] only for an [AIMessage] with at least one tool call, to
    those calls; its content is the one the content-only model gives. *)
Theorem convert_message_tool_calls (now : Z) (m : LcMessage) :
  let a := convert_lc_message now m in
  am_timestamp a = now /\
  am_content a = m_content (convert_message now (lc_content m)) /\
  match am_tool_calls a with
  | Some tcs => tcs <> [] /\ m = AIMessage (am_content a) tcs
  | None => has_tool_calls m = false
  end.
Proof.
  destruct m as [c|c tcs|c i|ty [c|] r]; simpl; repeat split; try reflexivity.
  destruct tcs; simpl; [reflexivity|]. split; [discriminate | reflexivity].
Qed.

Lemma last_opt_app {A} (l : list A) (x : A) : last_opt (l ++ [x])%list = Some x.
Proof. unfold last_opt. rewrite rev_app_distr. reflexivity. Qed.

Lemma last_opt_some {A} (l : list A) (x : A) :
  last_opt l = Some x -> exists pre, l = (pre ++ [x])%list.
Proof.
  unfold last_opt. intro H. destruct (rev l) as [|y r] eqn:E; [discriminate|].
  injection H as <-. exists (rev r).
  rewrite <- (rev_involutive l), E. reflexivity.
Qed.

Lemma last_opt_none {A} (l : list A) : last_opt l = None <-> l = [].
Proof.
  unfold last_opt. split; [|intros ->; reflexivity].
  destruct (rev l) eqn:E; [|discriminate]. intros _.
  rewrite <- (rev_involutive l), E. reflexivity.
Qed.

(** [should_continue] raises [IndexError] exactly on an empty message
    list; otherwise it routes to ["tools"] exactly when the last message
    is an [AIMessage] with at least one tool call, and to [END] exactly
    when the last message has none. *)
Theorem should_continue_routes (msgs : list LcMessage) :
  (should_continue msgs = inl IndexError <-> msgs = []) /\
  (should_continue msgs = inr "tools" <->
     exists pre c tc tcs, msgs = (pre ++ [AIMessage c (tc :: tcs)])%list) /\
  (should_continue msgs = inr END <->
     exists pre m, msgs = (pre ++ [m])%list /\ has_tool_calls m = false).
Proof.
  unfold should_continue. destruct (last_opt msgs) as [m|] eqn:E.
  - destruct (last_opt_some _ _ E) as [pre ->].
    split; [split; [discriminate | intro H; destruct pre; discriminate]|].
    split; split.
    + destruct (has_tool_calls m) eqn:Hm; [|discriminate]. intros _.
      destruct m as [|c [|tc tcs]| |]; try discriminate.
      exists pre, c, tc, tcs; reflexivity.
    + intros (pre' & c & tc & tcs & Heq). rewrite Heq, last_opt_app in E.
      injection E as <-. reflexivity.
    + destruct (has_tool_calls m) eqn:Hm; [discriminate|]. intros _.
      exists pre, m; split; [reflexivity | exact Hm].
    + intros (pre' & m' & Heq & Hm). rewrite Heq, last_opt_app in E.
      injection E as <-. rewrite Hm. reflexivity.
  - apply last_opt_none in E. subst msgs.
    split; [split; reflexivity|].
    split; split; try discriminate.
    + intros (pre & c & tc & tcs & H). destruct pre; discriminate.
    + intros (pre & m & H & _). destruct pre; discriminate.
Qed.

(** [get_weather]'s temperature is 5 to 34 degrees Celsius for every city
    hash and any units other than ["fahrenheit"] (None included), and 41
    to 93 degrees Fahrenheit for ["fahrenheit"]. *)
Theorem weather_temp_range (city_hash : Z) :
  (forall units, units <> Some "fahrenheit" ->
     snd (weather_temp city_hash units) = "C" /\
     5 <= fst (weather_temp city_hash units) <= 34) /\
  snd (weather_temp city_hash (Some "fahrenheit")) = "F" /\
  41 <= fst (weather_temp city_hash (Some "fahrenheit")) <= 93.
Proof.
  pose proof (Z.mod_pos_bound city_hash 30 ltac:(lia)) as B.
  split.
  - intros units Hu. unfold weather_temp.
    destruct units as [u|]; [|simpl; split; [reflexivity | lia]].
    destruct (String.eqb_spec u "fahrenheit") as [->|_]; [contradiction|].
    simpl; split; [reflexivity | lia].
  - unfold weather_temp. simpl. split; [reflexivity|].
    set (b := city_hash mod 30 + 5).
    pose proof (Z.div_mod (b * 9) 5 ltac:(lia)).
    pose proof (Z.mod_pos_bound (b * 9) 5 ltac:(lia)).
    unfold b in *. lia.
Qed.

Lemma find_checkpoint_in (st : Store) (t ns cid : string) (c : Checkpoint) :
  find_checkpoint st t ns cid = Some c ->
  In c (checkpoints_of st t ns) /\ c_id c = cid.
Proof.
  unfold find_checkpoint. intro H. destruct (find_some _ _ H) as [Hin He].
  split; [exact Hin | apply String.eqb_eq; exact He].
Qed.

Lemma aget_tuple_default_in (st : Store) (t ns : string) (c : Checkpoint) :
  aget_tuple st t ns None = Some c -> In c (checkpoints_of st t ns).
Proof.
  simpl. destruct (active_branch st t ns) as [b|].
  - destruct (b_head b) as [h|]; [|discriminate].
    intro H; exact (proj1 (find_checkpoint_in _ _ _ _ _ H)).
  - intro H. destruct (last_opt_some _ _ H) as [pre E]. rewrite E.
    apply in_or_app; right; left; reflexivity.
Qed.

Lemma aget_tuple_default_empty (st : Store) (t ns : string) :
  checkpoints_of st t ns = [] -> aget_tuple st t ns None = None.
Proof.
  intro E. simpl. unfold find_checkpoint. rewrite E.
  destruct (active_branch st t ns) as [b|]; [|reflexivity].
  destruct (b_head b); reflexivity.
Qed.

Lemma walk_chain_hd (st : Store) (t ns : string) (f : nat) (c : Checkpoint) :
  exists r, walk_chain st t ns f c = c :: r.
Proof. destruct f; simpl; eexists; reflexivity. Qed.

Lemma walk_chain_props (st : Store) (t ns : string) (f : nat) (c : Checkpoint) :
  In c (checkpoints_of st t ns) ->
  parent_linked (walk_chain st t ns f c) /\
  (forall x, In x (walk_chain st t ns f c) -> In x (checkpoints_of st t ns)).
Proof.
  revert c. induction f as [|f IH]; intros c Hc.
  - simpl. split; [exact I|]. intros x [<-|[]]. exact Hc.
  - simpl. destruct (c_parent c) as [p|] eqn:Hp.
    2:{ split; [exact I|]. intros x [<-|[]]. exact Hc. }
    destruct (find_checkpoint st t ns p) as [pc|] eqn:Hf.
    2:{ split; [exact I|]. intros x [<-|[]]. exact Hc. }
    destruct (find_checkpoint_in _ _ _ _ _ Hf) as [Hin Hid].
    destruct (IH pc Hin) as [IHl IHi].
    destruct (walk_chain_hd st t ns f pc) as [r Er].
    split.
    + rewrite Er in *. simpl. split; [rewrite Hid; reflexivity | exact IHl].
    + intros x [<-|Hx]; [exact Hc | exact (IHi x Hx)].
Qed.

(** [list_checkpoints] lists a chain of the thread's checkpoints, each one
    the child of the next, starting at the checkpoint [get_messages]
    reads: the first entry's [message_count] is the number of messages
    [get_messages] returns.  A thread without checkpoints lists none. *)
Theorem list_checkpoints_chain (st : Store) (t : string) (now : Z) :
  (checkpoints_of st t "" = [] -> list_checkpoints st t now = []) /\
  (exists cs,
     parent_linked cs /\
     (forall c, In c cs -> In c (checkpoints_of st t "")) /\
     map cs_checkpoint_id (list_checkpoints st t now) = map c_id cs /\
     map cs_message_count (list_checkpoints st t now)
       = map (fun c => List.length (raw_messages c)) cs /\
     hd_error cs = aget_tuple st t "" None) /\
  match list_checkpoints st t now with
  | [] => get_messages st t now = []
  | s :: _ => cs_message_count s = List.length (get_messages st t now)
  end.
Proof.
  unfold list_checkpoints, get_messages, alist.
  split; [intro E; rewrite (aget_tuple_default_empty _ _ _ E); reflexivity|].
  destruct (aget_tuple st t "" None) as [c|] eqn:Ha.
  - destruct (walk_chain_props st t "" (List.length (s_checkpoints st)) c
                (aget_tuple_default_in _ _ _ _ Ha)) as [Hl Hi].
    destruct (walk_chain_hd st t "" (List.length (s_checkpoints st)) c) as [r Er].
    split.
    + exists (walk_chain st t "" (List.length (s_checkpoints st)) c).
      split; [exact Hl|]. split; [exact Hi|].
      rewrite !map_map. split; [reflexivity|]. split; [reflexivity|].
      rewrite Er. reflexivity.
    + rewrite Er. simpl. rewrite length_map. reflexivity.
  - split; [|reflexivity].
    exists []. split; [exact I|]. split; [intros c []|].
    split; [reflexivity|]. split; reflexivity.
Qed.

Lemma find_id_fresh_app (q : Branch -> bool) (bid : string) (l : list Branch)
    (x : Branch) :
  ~ In bid (map b_id l) -> b_id x = bid ->
  find (fun b => String.eqb (b_id b) bid) (filter q l ++ [x]) = Some x.
Proof.
  intros Hn Hx. induction l as [|b l IH]; simpl.
  - rewrite Hx, String.eqb_refl. reflexivity.
  - simpl in Hn. destruct (q b); simpl; [|apply IH; tauto].
    destruct (String.eqb_spec (b_id b) bid); [tauto|]. apply IH; tauto.
Qed.




Lemma list_branches_records (st : Store) (t : string) :
  list_branches st t = branches_of st t "".
Proof.
  unfold list_branches, cypher_list_branches.
  induction (branches_of st t "") as [|b l IH]; simpl; [reflexivity|].
  rewrite IH. destruct b; reflexivity.
Qed.


(** After a successful [time_travel] with a freshly drawn branch id, the
    new branch, named as in the response and with the requested
    checkpoint as fork point and head, is the active branch of the
    conversation: [get_messages] returns the messages of the response,
    [list_checkpoints] starts at that checkpoint, [get_checkpoint] answers
    as before for every id, and the active branch of every other
    conversation is unchanged. *)
Theorem time_travel_reads (st : Store) (t : string) (req : TimeTravelRequest)
    (bid : string) (now : Z) (r : TimeTravelResponse) (st' : Store) :
  fresh_branch_id bid st ->
  time_travel st t req bid now = inr (r, st') ->
  (exists b, active_branch st' t "" = Some b /\ b_id b = bid /\
     b_name b = ttr_branch_name r /\
     b_fork_point b = Some (tt_checkpoint_id req) /\
     b_head b = Some (tt_checkpoint_id req)) /\
  current_head st' t "" = Some (tt_checkpoint_id req) /\
  get_messages st' t now = ttr_messages r /\
  option_map cs_checkpoint_id (hd_error (list_checkpoints st' t now))
    = Some (tt_checkpoint_id req) /\
  (forall x now', get_checkpoint st' t x now' = get_checkpoint st t x now') /\
  (forall t' ns', t' <> t \/ ns' <> "" ->
     active_branch st' t' ns' = active_branch st t' ns').
Proof.
  unfold fresh_branch_id. intros Hfresh H.
  unfold time_travel in H.
  destruct (aget_tuple st t "" (Some (tt_checkpoint_id req))) as [c|] eqn:Hc;
    [|discriminate].
  injection H as <- <-.
  set (cid := tt_checkpoint_id req) in *.
  set (name := py_or (tt_branch_name req) (default_branch_name bid)).
  set (nb := mkBranch bid t "" name now (Some cid) false (Some cid)).
  assert (Est : cypher_update_branch_head
                  (snd (cypher_set_active_branch
                          (cypher_create_branch st t "" bid name cid now) t "" bid))
                  t "" cid =
                mkStore (s_checkpoints st)
                  (map (set_active_flag t "" bid) (s_branches st ++ [nb]))).
  { rewrite set_active_created. simpl.
    exact (update_head_after_activate st t bid name cid now Hfresh). }
  rewrite Est. clear Est.
  set (st2 := mkStore (s_checkpoints st)
                (map (set_active_flag t "" bid) (s_branches st ++ [nb]))).
  assert (Hnb : br_in_conv t "" nb = true).
  { unfold br_in_conv; simpl. rewrite !String.eqb_refl. reflexivity. }
  set (ab := mkBranch bid t "" name now (Some cid) true (Some cid)).
  assert (Ha : active_branch st2 t "" = Some ab).
  { unfold active_branch, branches_of, st2; simpl.
    rewrite filter_map_comm by (intro; apply set_active_flag_conv).
    rewrite find_active_after_set by apply filter_all_true.
    rewrite filter_app. simpl. rewrite Hnb.
    rewrite find_id_fresh_app by (exact Hfresh || reflexivity). simpl.
    unfold set_active_flag. rewrite Hnb. simpl. rewrite String.eqb_refl.
    reflexivity. }
  assert (Hf : find_checkpoint st2 t "" cid = Some c) by exact Hc.
  assert (Hd : aget_tuple st2 t "" None = Some c).
  { simpl. rewrite Ha. exact Hf. }
  split; [exists ab; repeat split; assumption|].
  split; [unfold current_head; rewrite Ha; reflexivity|].
  split; [unfold get_messages; rewrite Hd; reflexivity|].
  split.
  { unfold list_checkpoints, alist. rewrite Hd.
    destruct (walk_chain_hd st2 t "" (List.length (s_checkpoints st2)) c) as [rest Er].
    rewrite Er. simpl. f_equal.
    exact (proj2 (find_checkpoint_in _ _ _ _ _ Hc)). }
  split; [intros; reflexivity|].
  intros t' ns' Hne.
  unfold active_branch, branches_of, st2; simpl.
  rewrite filter_map_comm by (intro; apply set_active_flag_conv).
  rewrite set_active_other_conv with (t' := t') (ns' := ns');
    [| apply filter_all_true
     | destruct Hne as [Hne|Hne];
       [ destruct (String.eqb_spec t' t); [contradiction | reflexivity]
       | destruct (String.eqb_spec ns' ""); [contradiction|];
         rewrite andb_false_r; reflexivity ] ].
  rewrite filter_app. simpl.
  assert (Hnb' : br_in_conv t' ns' nb = false).
  { unfold br_in_conv, nb; cbn [b_thread b_ns].
    destruct Hne as [Hne|Hne];
      [ destruct (String.eqb_spec t t'); [congruence | reflexivity]
      | destruct (String.eqb_spec "" ns'); [congruence|];
        rewrite andb_false_r; reflexivity ]. }
  rewrite Hnb', app_nil_r. reflexivity.
Qed.

Lemma time_travel_reads_witness :
  fresh_branch_id "b1" st_c1 /\
  time_travel st_c1 "t1" (mkTimeTravelRequest "c0" None) "b1" 120 =
    inr (mkTimeTravelResponse "c0" "b1" "fork-b1" [mkMessage "hello" 120],
         run_writes (time_travel_writes "t1" (mkTimeTravelRequest "c0" None)
                       "b1" "fork-b1" 120) st_c1) /\
  current_head
    (run_writes (time_travel_writes "t1" (mkTimeTravelRequest "c0" None)
                   "b1" "fork-b1" 120) st_c1) "t1" "" = Some "c0".
Proof.
  assert (F : fresh_branch_id "b1" st_c1)
    by (unfold fresh_branch_id; simpl; intros [H|H]; [discriminate | exact H]).
  assert (E : time_travel st_c1 "t1" (mkTimeTravelRequest "c0" None) "b1" 120 =
    inr (mkTimeTravelResponse "c0" "b1" "fork-b1" [mkMessage "hello" 120],
         run_writes (time_travel_writes "t1" (mkTimeTravelRequest "c0" None)
                       "b1" "fork-b1" 120) st_c1)) by reflexivity.
  split; [exact F|]. split; [exact E|].
  exact (proj1 (proj2 (time_travel_reads st_c1 "t1" (mkTimeTravelRequest "c0" None)
           "b1" 120 _ _ F E))).
Defined.


Lemma delete_conv_empty (st : Store) (t : string) :
  checkpoints_of (adelete_thread st t) t "" = [] /\
  branches_of (adelete_thread st t) t "" = [].
Proof.
  unfold checkpoints_of, branches_of, adelete_thread, in_conv, br_in_conv; simpl.
  rewrite (filter_conv_del c_thread c_ns t t "" (s_checkpoints st)).
  rewrite (filter_conv_del b_thread b_ns t t "" (s_branches st)).
  rewrite String.eqb_refl. split; reflexivity.
Qed.

(** After [delete_thread], every endpoint sees the thread as never
    written: [get_messages], [list_checkpoints], [list_branches] and the
    tree are empty, and [get_checkpoint], [fork_branch], [switch_branch]
    and [time_travel] all fail with 404. *)
Theorem delete_thread_reads_empty (st : Store) (t : string) (now : Z) :
  let st' := snd (delete_thread st t) in
  get_messages st' t now = [] /\
  list_checkpoints st' t now = [] /\
  list_branches st' t = [] /\
  get_checkpoint_tree st' t = mkCheckpointTree [] [] /\
  (forall cid, get_checkpoint st' t cid now =
                 inl (HTTPException 404 "Checkpoint not found")) /\
  (forall req bid, fork_branch st' t req bid now =
                     inl (HTTPException 404 "Checkpoint not found")) /\
  (forall req bid, time_travel st' t req bid now =
                     inl (HTTPException 404 "Checkpoint not found")) /\
  (forall bid, switch_branch st' t bid now =
                 inl (HTTPException 404 "Branch not found")).
Proof.
  intro st'. destruct (delete_conv_empty st t) as [Ec Eb].
  change (adelete_thread st t) with st' in Ec, Eb.
  assert (Hn : forall o, aget_tuple st' t "" o = None).
  { intros [cid|]; [unfold aget_tuple, find_checkpoint; rewrite Ec; reflexivity|].
    apply aget_tuple_default_empty; exact Ec. }
  unfold get_messages, list_checkpoints, alist, get_checkpoint, fork_branch,
    time_travel, switch_branch, cypher_set_active_branch.
  rewrite !Hn, list_branches_records, Eb.
  split; [reflexivity|]. split; [reflexivity|]. split; [reflexivity|].
  split.
  - unfold get_checkpoint_tree, cypher_get_checkpoint_tree, cypher_list_branches.
    rewrite Ec, Eb. reflexivity.
  - split; [intro; rewrite Hn; reflexivity|].
    split; [intros; rewrite Hn; reflexivity|].
    split; [intros; rewrite Hn; reflexivity|].
    intro; reflexivity.
Qed.



Lemma nodup_map_inj {A B} (f : A -> B) (l : list A) (x y : A) :
  NoDup (map f l) -> In x l -> In y l -> f x = f y -> x = y.
Proof.
  induction l as [|a l IH]; simpl; [tauto|]. intros Hn Hx Hy E.
  inversion Hn as [|? ? Hnot Hl]; subst.
  destruct Hx as [<-|Hx], Hy as [<-|Hy]; try reflexivity.
  - exfalso. apply Hnot. rewrite E. apply in_map; exact Hy.
  - exfalso. apply Hnot. rewrite <- E. apply in_map; exact Hx.
  - apply IH; assumption.
Qed.

Lemma active_count_one_eq (l : list Branch) (x y : Branch) :
  active_count l = 1%nat -> In x l -> In y l ->
  b_is_active x = true -> b_is_active y = true -> x = y.
Proof.
  unfold active_count. intros H Hx Hy Ax Ay.
  assert (Fx : In x (filter b_is_active l)) by (apply filter_In; auto).
  assert (Fy : In y (filter b_is_active l)) by (apply filter_In; auto).
  destruct (filter b_is_active l) as [|z [|z' r]]; try discriminate.
  destruct Fx as [<-|[]], Fy as [<-|[]]. reflexivity.
Qed.

Lemma reachable_st_c1 : reachable st_c1.
Proof.
  unfold st_c1. apply reach_append;
    [|unfold fresh_branch_id; simpl; intros [H|H]; [discriminate | exact H]].
  unfold st_c0. apply reach_append;
    [exact reach_empty | unfold fresh_branch_id; simpl; tauto].
Qed.

(** On a reachable store, [switch_branch] to the branch that is already
    active succeeds and writes nothing: the store is unchanged and the
    response carries the messages [get_messages] returns. *)
Theorem switch_to_active_noop (st : Store) (t : string) (b : Branch) (now : Z) :
  reachable st -> active_branch st t "" = Some b ->
  exists r, switch_branch st t (b_id b) now = inr (r, st) /\
            sw_branch_id r = b_id b /\
            sw_messages r = get_messages st t now.
Proof.
  intros Hr Ha. destruct (reachable_branch_inv st Hr t "") as [Hnd Hc].
  unfold active_branch in Ha. destruct (find_some _ _ Ha) as [Hbin Hbact].
  assert (Hone : active_count (branches_of st t "") = 1%nat).
  { destruct Hc as [[E _]|E]; [rewrite E in Hbin; destruct Hbin | exact E]. }
  assert (Hid : forall x, In x (s_branches st) -> set_active_flag t "" (b_id b) x = x).
  { intros x Hx. unfold set_active_flag.
    destruct (br_in_conv t "" x) eqn:Ec; [|reflexivity].
    assert (Xin : In x (branches_of st t "")) by (apply filter_In; auto).
    destruct x as [xi xt xn xnm xc xf xa xh]; simpl in *. f_equal.
    destruct xa.
    - assert (E : mkBranch xi xt xn xnm xc xf true xh = b)
        by (apply (active_count_one_eq _ _ _ Hone Xin Hbin); auto).
      rewrite <- E. apply String.eqb_refl.
    - destruct (String.eqb_spec xi (b_id b)) as [E|E]; [|reflexivity].
      exfalso.
      assert (E' : mkBranch xi xt xn xnm xc xf false xh = b)
        by (apply (nodup_map_inj b_id _ _ _ Hnd Xin Hbin); exact E).
      rewrite <- E' in Hbact. discriminate. }
  assert (Hst : mkStore (s_checkpoints st)
                  (map (set_active_flag t "" (b_id b)) (s_branches st)) = st).
  { destruct st as [cs bs]; simpl in *. f_equal.
    rewrite <- (map_id bs) at 2. apply map_ext_in. exact Hid. }
  assert (Hex : existsb (fun x => String.eqb (b_id x) (b_id b))
                  (branches_of st t "") = true).
  { apply existsb_id_in, in_map. exact Hbin. }
  unfold switch_branch, cypher_set_active_branch. rewrite Hex, Hst.
  eexists; split; [reflexivity|]. split; reflexivity.
Qed.

Lemma switch_to_active_noop_witness :
  reachable st_c1 /\ active_branch st_c1 "t1" "" = Some (mkBranch "b0" "t1" "" "main" 100 None true (Some "c1")) /\
  exists r, switch_branch st_c1 "t1" "b0" 9 = inr (r, st_c1) /\
            sw_branch_id r = "b0" /\ sw_messages r = get_messages st_c1 "t1" 9.
Proof.
  assert (A : active_branch st_c1 "t1" "" =
              Some (mkBranch "b0" "t1" "" "main" 100 None true (Some "c1")))
    by reflexivity.
  split; [exact reachable_st_c1|]. split; [exact A|].
  exact (switch_to_active_noop st_c1 "t1" _ 9 reachable_st_c1 A).
Defined.


Lemma weather_temp_range_witness :
  Some "celsius" <> Some "fahrenheit" /\
  snd (weather_temp 47 (Some "celsius")) = "C" /\
  5 <= fst (weather_temp 47 (Some "celsius")) <= 34.
Proof.
  assert (H : Some "celsius" <> Some "fahrenheit") by discriminate.
  split; [exact H|]. exact (proj1 (weather_temp_range 47) _ H).
Defined.
